(** * GOAP planner and OODA loop of [goap-planner.js]

    A shallow embedding of the classes [GOAPState], [GOAPAction],
    [GOAPNode], [GOAPPlanner] and [OODALoop], followed by the properties
    of the planner and of the execution loop.

    [GOAPState] objects are mutable ([set] writes the receiver's [Map] in
    place), so they live in a heap and are passed by reference; every
    method is a computation in a state-and-exception monad over that heap.
    Plain objects used as records of propositions (preconditions, effects,
    the argument of [satisfies]) are never written by the code and are
    values. *)

From Stdlib Require Import ZArith Lia List String Ascii DecimalString.
From stdpp Require Import base list strings numbers option sorting.

Open Scope Z_scope.

(** ** JavaScript values, [Map]s and plain objects *)

Module JS.

(** The primitive values a proposition can hold.  Numbers are the
    integer-valued ones (on which the arithmetic of the planner is exact);
    a string is a sequence of code units below 256. *)
Inductive value : Type :=
  | VUndefined
  | VNull
  | VBool (b : bool)
  | VNum (n : Z)
  | VStr (s : string).

#[global] Instance value_eq_dec : EqDecision value.
Proof. solve_decision. Defined.

(** [ToBoolean]. *)
Definition truthy (v : value) : bool :=
  match v with
  | VUndefined | VNull => false
  | VBool b => b
  | VNum n => negb (n =? 0)
  | VStr s => negb (bool_decide (s = EmptyString))
  end.

(** [a || b]. *)
Definition or_else (a b : value) : value := if truthy a then a else b.

(** [a === b] on primitives. *)
Definition strict_eq (a b : value) : bool := bool_decide (a = b).

(** A list of [key, value] pairs: what [Object.entries] returns and what
    [new Map] and [Object.fromEntries] consume. *)
Abbreviation entries := (list (string * value)).

(** *** [Map] with string keys, in insertion order *)

Abbreviation JSMap := (list (string * value)).

(** [Map.prototype.get]: [undefined] for an absent key. *)
Fixpoint map_get (m : JSMap) (key : string) : value :=
  match m with
  | [] => VUndefined
  | (k, v) :: m' => if bool_decide (k = key) then v else map_get m' key
  end.

(** [Map.prototype.set]: an existing key keeps its place, a new one goes
    last. *)
Fixpoint map_set (m : JSMap) (key : string) (v : value) : JSMap :=
  match m with
  | [] => [(key, v)]
  | (k, w) :: m' =>
      if bool_decide (k = key) then (k, v) :: m' else (k, w) :: map_set m' key v
  end.

(** [new Map(iterable)]. *)
Definition map_of_entries (es : entries) : JSMap :=
  fold_left (fun m kv => map_set m kv.1 kv.2) es [].

(** *** Plain objects with own enumerable string-keyed data properties *)

(** Own properties in [OrdinaryOwnPropertyKeys] order: array indices in
    ascending numeric order first, then the other keys in creation
    order. *)
Abbreviation Obj := (list (string * value)).

Definition is_digit (c : ascii) : bool :=
  let n := nat_of_ascii c in ((48 <=? n) && (n <=? 57))%nat.

Fixpoint digits_value (s : string) (acc : N) : N :=
  match s with
  | EmptyString => acc
  | String c s' =>
      digits_value s' (10 * acc + N.of_nat (nat_of_ascii c - 48))%N
  end.

Fixpoint all_digits (s : string) : bool :=
  match s with
  | EmptyString => true
  | String c s' => is_digit c && all_digits s'
  end.

(** A key is an array index when it is the canonical decimal numeral of
    an integer in [0, 2^32 - 2]. *)
Definition array_index (key : string) : option N :=
  match key with
  | EmptyString => None
  | String c rest =>
      if negb (all_digits key) then None
      else if (nat_of_ascii c =? 48)%nat && negb (bool_decide (rest = EmptyString))
      then None
      else if (String.length key <=? 10)%nat
              && (digits_value key 0 <=? 4294967294)%N
      then Some (digits_value key 0)
      else None
  end.

(** [true] when a new property [key] is enumerated before the existing
    property [k]. *)
Definition key_before (key k : string) : bool :=
  match array_index key, array_index k with
  | Some i, Some j => (i <? j)%N
  | Some _, None => true
  | None, _ => false
  end.

(** [CreateDataProperty]: an existing property is overwritten where it
    is, a new one takes its place in the enumeration order. *)
Fixpoint obj_define (o : Obj) (key : string) (v : value) : Obj :=
  match o with
  | [] => [(key, v)]
  | (k, w) :: o' =>
      if bool_decide (k = key) then (k, v) :: o'
      else if key_before key k && negb (bool_decide (key ∈ o'.*1))
      then (key, v) :: (k, w) :: o'
      else (k, w) :: obj_define o' key v
  end.

Definition Object_fromEntries (es : entries) : Obj :=
  fold_left (fun o kv => obj_define o kv.1 kv.2) es [].

Definition Object_entries (o : Obj) : entries := o.

Definition Object_keys (o : Obj) : list string := o.*1.

(** Property read [o[key]] on an object literal whose own properties are
    [o]: [None] when [key] is not an own property. *)
Fixpoint obj_own (o : Obj) (key : string) : option value :=
  match o with
  | [] => None
  | (k, v) :: o' => if bool_decide (k = key) then Some v else obj_own o' key
  end.

(** *** [JSON.stringify(obj, null, 2)] on an object of primitives *)

Definition dquote : string := String (ascii_of_nat 34) EmptyString.
Definition backslash : string := String (ascii_of_nat 92) EmptyString.
Definition newline : string := String (ascii_of_nat 10) EmptyString.

Definition hex_digit (n : nat) : ascii :=
  if (n <? 10)%nat then ascii_of_nat (48 + n) else ascii_of_nat (87 + n).

(** One code unit of [QuoteJSONString]. *)
Definition quote_unit (c : ascii) : string :=
  let n := nat_of_ascii c in
  if (n =? 34)%nat then backslash +:+ dquote
  else if (n =? 92)%nat then backslash +:+ backslash
  else if (n =? 8)%nat then backslash +:+ "b"
  else if (n =? 12)%nat then backslash +:+ "f"
  else if (n =? 10)%nat then backslash +:+ "n"
  else if (n =? 13)%nat then backslash +:+ "r"
  else if (n =? 9)%nat then backslash +:+ "t"
  else if (n <? 32)%nat
  then backslash +:+ "u00"
       +:+ String (hex_digit (n / 16)) (String (hex_digit (n mod 16)) EmptyString)
  else String c EmptyString.

Fixpoint quote_units (s : string) : string :=
  match s with
  | EmptyString => EmptyString
  | String c s' => quote_unit c +:+ quote_units s'
  end.

Definition quote_JSON_string (s : string) : string :=
  dquote +:+ quote_units s +:+ dquote.

(** [SerializeJSONProperty] on a primitive: [None] for [undefined], whose
    property is left out. *)
Definition serialize_value (v : value) : option string :=
  match v with
  | VUndefined => None
  | VNull => Some "null"%string
  | VBool true => Some "true"%string
  | VBool false => Some "false"%string
  | VNum n => Some (NilZero.string_of_int (Z.to_int n))
  | VStr s => Some (quote_JSON_string s)
  end.

Definition serialize_property (kv : string * value) : option string :=
  match serialize_value kv.2 with
  | None => None
  | Some sv => Some ("  " +:+ quote_JSON_string kv.1 +:+ ": " +:+ sv)
  end.

Fixpoint join_lines (ls : list string) : string :=
  match ls with
  | [] => EmptyString
  | [l] => l
  | l :: ls' => l +:+ "," +:+ newline +:+ join_lines ls'
  end.

(** [SerializeJSONObject] with gap of two spaces. *)
Definition JSON_stringify (o : Obj) : string :=
  match omap serialize_property o with
  | [] => "{}"%string
  | ls => "{" +:+ newline +:+ join_lines ls +:+ newline +:+ "}"
  end.

End JS.

Import JS.

(** ** The heap of [GOAPState] objects and the monad of method calls *)

(** A reference to a [GOAPState] object. *)
Abbreviation ref := nat.

(** The heap holds, for every allocated [GOAPState], its field [state]. *)
Abbreviation heap := (list JSMap).

Inductive outcome (A : Type) : Type :=
  | Return (a : A)
  | Throw (message : string).
Arguments Return {A} a.
Arguments Throw {A} message.

Definition M (A : Type) : Type := heap -> outcome A * heap.

Definition ret {A} (a : A) : M A := fun h => (Return a, h).

Definition bind {A B} (c : M A) (k : A -> M B) : M B :=
  fun h =>
    match c h with
    | (Return a, h') => k a h'
    | (Throw e, h') => (Throw e, h')
    end.

Definition throw {A} (message : string) : M A := fun h => (Throw message, h).

Notation "'let*' x ':=' c 'in' k" := (bind c (fun x => k))
  (at level 10, x name, c at level 100, k at level 200).
Notation "'do' c 'then' k" := (bind c (fun _ => k))
  (at level 10, c at level 100, k at level 200).

(** [this.state] of the object at [r].  A reference the code holds is
    always allocated; outside the heap a read gives the empty map and a
    write does nothing. *)
Definition heap_read (h : heap) (r : ref) : JSMap := default [] (h !! r).

Definition read_state (r : ref) : M JSMap := fun h => (Return (heap_read h r), h).

Definition write_state (r : ref) (m : JSMap) : M unit :=
  fun h => (Return tt, <[r := m]> h).

Definition alloc_state (m : JSMap) : M ref :=
  fun h => (Return (length h), h ++ [m]).

(** [array.every(f)]. *)
Fixpoint every {A} (f : A -> M bool) (l : list A) : M bool :=
  match l with
  | [] => ret true
  | x :: l' => let* b := f x in if b then every f l' else ret false
  end.

(** [array.forEach(f)]. *)
Fixpoint forEach {A} (f : A -> M unit) (l : list A) : M unit :=
  match l with
  | [] => ret tt
  | x :: l' => do f x then forEach f l'
  end.

(** ** class GOAPState *)

Module GOAPState.

(** [constructor(state = {})]. *)
Definition new (state : Obj) : M ref :=
  alloc_state (map_of_entries (Object_entries state)).

Definition clone (this : ref) : M ref :=
  let* m := read_state this in
  new (Object_fromEntries m).

Definition get (this : ref) (key : string) : M value :=
  let* m := read_state this in
  ret (or_else (map_get m key) (VBool false)).

(** Writes the receiver's map and returns nothing. *)
Definition set (this : ref) (key : string) (v : value) : M unit :=
  let* m := read_state this in
  write_state this (map_set m key v).

Definition satisfies (this : ref) (conditions : Obj) : M bool :=
  every (fun kv => let* g := get this kv.1 in ret (strict_eq g kv.2))
        (Object_entries conditions).

Definition applyEffects (this : ref) (effects : Obj) : M ref :=
  let* newState := clone this in
  do forEach (fun kv => set newState kv.1 kv.2) (Object_entries effects) then
  ret newState.

Fixpoint getDistance_loop (this : ref) (es : entries) (distance : Z) : M Z :=
  match es with
  | [] => ret distance
  | (key, v) :: es' =>
      let* g := get this key in
      getDistance_loop this es'
        (if negb (strict_eq g v) then distance + 1 else distance)
  end.

Definition getDistance (this : ref) (goalState : ref) : M Z :=
  let* gm := read_state goalState in
  getDistance_loop this gm 0.

Definition toString (this : ref) : M string :=
  let* m := read_state this in
  ret (JSON_stringify (Object_fromEntries m)).

End GOAPState.

(** ** class GOAPAction *)

(** The fields [tools] and [fallback] are initialised to [[]] and [null]
    and never read; they are left out. *)
Record GOAPAction : Type := mkAction {
  name : string;
  preconditions : Obj;
  effects : Obj;
  cost : Z;
  executionType : string;
}.

#[global] Instance GOAPAction_eq_dec : EqDecision GOAPAction.
Proof. solve_decision. Defined.

(** What [execute] resolves to. *)
Inductive ExecResult : Type :=
  | ResultCode
  | ResultLLM (insights : string)
  | ResultHybrid (llm code : ExecResult).

Module GOAPAction.

Definition isApplicable (this : GOAPAction) (state : ref) : M bool :=
  GOAPState.satisfies state (preconditions this).

Definition apply (this : GOAPAction) (state : ref) : M ref :=
  let* applicable := isApplicable this state in
  if negb applicable
  then throw ("Action " +:+ name this +:+ " not applicable in current state")
  else GOAPState.applyEffects state (effects this).

Definition executeCode (this : GOAPAction) : M ExecResult := ret ResultCode.

Definition executeLLM (this : GOAPAction) : M ExecResult :=
  ret (ResultLLM ("Generated insights for " +:+ name this)).

Definition executeHybrid (this : GOAPAction) : M ExecResult :=
  let* llmResult := executeLLM this in
  let* codeResult := executeCode this in
  ret (ResultHybrid llmResult codeResult).

(** The timers of the three executors only delay; the context argument
    is not used by any of them. *)
Definition execute (this : GOAPAction) : M ExecResult :=
  if bool_decide (executionType this = "code"%string) then executeCode this
  else if bool_decide (executionType this = "llm"%string) then executeLLM this
  else if bool_decide (executionType this = "hybrid"%string) then executeHybrid this
  else throw ("Unknown execution type: " +:+ executionType this).

End GOAPAction.

(** ** class GOAPNode *)

(** The constructor is called as [new GOAPNode(state)] for the root and
    as [new GOAPNode(state, action, parent, cost)] for a successor:
    [action] and [parent] are null together, and are one optional
    field here. *)
#[local] Unset Elimination Schemes.
Inductive GOAPNode : Type :=
  mkNode (state : ref) (link : option (GOAPAction * GOAPNode))
         (cost heuristic totalCost : Z).
#[local] Set Elimination Schemes.

Module GOAPNode.

Definition state (n : GOAPNode) : ref := let 'mkNode s _ _ _ _ := n in s.
Definition link (n : GOAPNode) : option (GOAPAction * GOAPNode) :=
  let 'mkNode _ l _ _ _ := n in l.
Definition cost (n : GOAPNode) : Z := let 'mkNode _ _ c _ _ := n in c.
Definition heuristic (n : GOAPNode) : Z := let 'mkNode _ _ _ x _ := n in x.
Definition totalCost (n : GOAPNode) : Z := let 'mkNode _ _ _ _ t := n in t.

(** The loop [while (current.parent) { path.unshift(current.action); ... }]. *)
Fixpoint getPath_loop (current : GOAPNode) (path : list GOAPAction)
  : list GOAPAction :=
  match current with
  | mkNode _ None _ _ _ => path
  | mkNode _ (Some (action, parent)) _ _ _ => getPath_loop parent (action :: path)
  end.

Definition getPath (this : GOAPNode) : list GOAPAction := getPath_loop this [].

End GOAPNode.

(** ** class GOAPPlanner *)

(** [actions] is the [Map] from action name to action, in insertion
    order. *)
Record GOAPPlanner : Type := mkPlanner {
  actions : list (string * GOAPAction);
  maxSearchDepth : Z;
}.

(** What [analyzePlan] returns.  [estimatedTime] is [None] when the
    reduction of [estimateExecutionTime] leaves the numbers (see
    there). *)
Record PlanAnalysis : Type := mkPlanAnalysis {
  totalCost : Z;
  actionCount : nat;
  executionTypes : list string;
  parallelizable : list (list GOAPAction);
  estimatedTime : option Z;
}.

Module GOAPPlanner.

Definition new : GOAPPlanner := mkPlanner [] 20.

(** [Map.prototype.set] on the repertoire. *)
Fixpoint actions_set (m : list (string * GOAPAction)) (key : string)
    (a : GOAPAction) : list (string * GOAPAction) :=
  match m with
  | [] => [(key, a)]
  | (k, b) :: m' =>
      if bool_decide (k = key) then (k, a) :: m'
      else (k, b) :: actions_set m' key a
  end.

Definition addAction (this : GOAPPlanner) (action : GOAPAction) : GOAPPlanner :=
  mkPlanner (actions_set (actions this) (name action) action)
            (maxSearchDepth this).

(** [this.actions.values()]. *)
Definition actions_values (this : GOAPPlanner) : list GOAPAction :=
  (actions this).*2.

Definition maxIterations : nat := 1000.

(** [openSet.sort((a, b) => a.totalCost - b.totalCost)]: the sort is
    stable, so nodes of equal [totalCost] keep their order. *)
Fixpoint sort_insert (n : GOAPNode) (l : list GOAPNode) : list GOAPNode :=
  match l with
  | [] => [n]
  | x :: l' =>
      if GOAPNode.totalCost n <=? GOAPNode.totalCost x then n :: x :: l'
      else x :: sort_insert n l'
  end.

Definition sort_by_totalCost (l : list GOAPNode) : list GOAPNode :=
  foldr sort_insert [] l.

(** The loop [for (const action of this.actions.values())] of
    [generatePlan], from the action [acts] starts with; [openSet] is the
    frontier the loop pushes to. *)
Fixpoint explore (this : GOAPPlanner) (goalState : ref) (currentNode : GOAPNode)
    (acts : list GOAPAction) (openSet : list GOAPNode) : M (list GOAPNode) :=
  match acts with
  | [] => ret openSet
  | action :: acts' =>
      let* applicable := GOAPAction.isApplicable action (GOAPNode.state currentNode) in
      if applicable then
        let* newState := GOAPAction.apply action (GOAPNode.state currentNode) in
        let newCost := GOAPNode.cost currentNode + cost action in
        if newCost >? maxSearchDepth this
        then explore this goalState currentNode acts' openSet
        else
          let* h := GOAPState.getDistance newState goalState in
          let newNode :=
            mkNode newState (Some (action, currentNode)) newCost h (newCost + h) in
          explore this goalState currentNode acts' (openSet ++ [newNode])
      else explore this goalState currentNode acts' openSet
  end.

(** The loop [while (openSet.length > 0 && iterations < maxIterations)]
    with [remaining = maxIterations - iterations].  Sorting keeps the
    length, so the test on [openSet.length] is the test that [shift]
    finds a node. *)
Fixpoint search (this : GOAPPlanner) (goalState : ref) (remaining : nat)
    (openSet : list GOAPNode) (closedSet : list string)
  : M (option (list GOAPAction)) :=
  match remaining with
  | O => ret None
  | S remaining' =>
      match sort_by_totalCost openSet with
      | [] => ret None
      | currentNode :: openSet' =>
          let* goal := read_state goalState in
          let* reached :=
            GOAPState.satisfies (GOAPNode.state currentNode) (Object_fromEntries goal) in
          if reached then ret (Some (GOAPNode.getPath currentNode))
          else
            let* stateKey := GOAPState.toString (GOAPNode.state currentNode) in
            if bool_decide (stateKey ∈ closedSet)
            then search this goalState remaining' openSet' closedSet
            else
              let* openSet'' :=
                explore this goalState currentNode (actions_values this) openSet' in
              search this goalState remaining' openSet'' (stateKey :: closedSet)
      end
  end.

(** [null] is [None]. *)
Definition generatePlan (this : GOAPPlanner) (currentState goalState : ref)
  : M (option (list GOAPAction)) :=
  let* h := GOAPState.getDistance currentState goalState in
  let startNode := mkNode currentState None 0 h h in
  search this goalState maxIterations [startNode] [].

Definition canRunInParallel (action1 action2 : GOAPAction) : bool :=
  let effects1 := Object_keys (effects action1) in
  let effects2 := Object_keys (effects action2) in
  let preconditions1 := Object_keys (preconditions action1) in
  let preconditions2 := Object_keys (preconditions action2) in
  negb (existsb (fun key => bool_decide (key ∈ preconditions2)) effects1)
  && negb (existsb (fun key => bool_decide (key ∈ preconditions1)) effects2)
  && negb (existsb (fun key => bool_decide (key ∈ effects2)) effects1).

Fixpoint findParallelizableActions_loop (plan : list GOAPAction)
    (parallelGroups : list (list GOAPAction)) (currentGroup : list GOAPAction)
  : list (list GOAPAction) :=
  match plan with
  | [] =>
      if (1 <? length currentGroup)%nat
      then parallelGroups ++ [currentGroup] else parallelGroups
  | action :: plan' =>
      let canParallelize :=
        forallb (fun groupAction => canRunInParallel action groupAction) currentGroup in
      if canParallelize && (length currentGroup <? 3)%nat
      then findParallelizableActions_loop plan' parallelGroups (currentGroup ++ [action])
      else
        findParallelizableActions_loop plan'
          (if (1 <? length currentGroup)%nat
           then parallelGroups ++ [currentGroup] else parallelGroups)
          [action]
  end.

Definition findParallelizableActions (plan : list GOAPAction)
  : list (list GOAPAction) :=
  findParallelizableActions_loop plan [] [].

(** The object literal [baseTime]. *)
Definition baseTime : Obj :=
  [("code"%string, VNum 100); ("llm"%string, VNum 200); ("hybrid"%string, VNum 250)].

(** The names [baseTime] inherits from [Object.prototype]: reading one
    of them gives a function or an object, not [undefined]. *)
Definition Object_prototype_names : list string :=
  ["constructor"; "hasOwnProperty"; "isPrototypeOf"; "propertyIsEnumerable";
   "toLocaleString"; "toString"; "valueOf"; "__proto__";
   "__defineGetter__"; "__defineSetter__"; "__lookupGetter__";
   "__lookupSetter__"]%string.

(** [baseTime[executionType] || 100]: [None] when the read finds an
    inherited member, which is truthy and not a number. *)
Definition baseTime_or_100 (executionType : string) : option Z :=
  match obj_own baseTime executionType with
  | Some (VNum n) => Some (if n =? 0 then 100 else n)
  | Some _ => None
  | None =>
      if bool_decide (executionType ∈ Object_prototype_names) then None
      else Some 100
  end.

(** [plan.reduce((total, action) => total + (... || 100), 0)].  Once a
    summand is not a number, [+] concatenates strings and the result is
    no number: [None]. *)
Definition estimateExecutionTime (plan : list GOAPAction) : option Z :=
  fold_left
    (fun total action =>
       match total, baseTime_or_100 (executionType action) with
       | Some t, Some d => Some (t + d)
       | _, _ => None
       end)
    plan (Some 0).

Definition analyzePlan (plan : list GOAPAction) : PlanAnalysis :=
  let totalCost := fold_left (fun sum action => sum + cost action) plan 0 in
  let executionTypes := map executionType plan in
  let parallelizable := findParallelizableActions plan in
  mkPlanAnalysis totalCost (length plan) executionTypes parallelizable
                 (estimateExecutionTime plan).

End GOAPPlanner.

(** ** class OODALoop *)

(** The field [step] of a history entry: a step index, or the string
    ['replan']. *)
Inductive StepTag : Type :=
  | StepIndex (i : nat)
  | StepReplan.

(** An entry of [executionHistory]; a field the entry does not have is
    [None]. *)
Record HistoryEntry : Type := mkEntry {
  step : StepTag;
  action : string;
  result : option ExecResult;
  error : option string;
  newPlan : option (list string);
  timestamp : string;
}.

(** A loop object as [runOODALoop] is called on it: the constructor
    leaves [worldState] and [goalState] null, and every caller assigns
    both before it runs the loop.  The two fields are the references
    assigned; a loop object with one of them still null, on which
    [observe] throws at [this.worldState.clone()], is not a value of
    this type.  [currentPlan] may be null. *)
Record OODALoop : Type := mkLoop {
  planner : GOAPPlanner;
  currentPlan : option (list GOAPAction);
  currentStep : nat;
  worldState : ref;
  goalState : ref;
  executionHistory : list HistoryEntry;
  monitoring : bool;
}.

Record Observations : Type := mkObservations {
  currentState : ref;
  planProgress : nat;
  totalSteps : nat;
  lastAction : option HistoryEntry;
  anomalies : list string;
}.

Record Analysis : Type := mkAnalysis {
  stateChanged : bool;
  planValid : bool;
  goalReachable : bool;
  needsReplanning : bool;
}.

Inductive DecisionAction : Type := Continue | Replan | Complete.

Record Decision : Type := mkDecision {
  decision_action : DecisionAction;
  reason : string;
}.

(** [try { body } catch (error) { handler(error.message) }]: what the
    body wrote to the heap before it threw stays written. *)
Definition try_catch {A} (body : M A) (handler : string -> M A) : M A :=
  fun h =>
    match body h with
    | (Return a, h') => (Return a, h')
    | (Throw e, h') => handler e h'
    end.

Module OODALoop.

(** The loop is used with [worldState] and [goalState] assigned by the
    caller; [currentPlan] starts as [null]. *)
Definition new (planner : GOAPPlanner) (worldState goalState : ref) : OODALoop :=
  mkLoop planner None 0 worldState goalState [] false.

Definition null_length : string :=
  "Cannot read properties of null (reading 'length')".

Definition detectAnomalies (this : OODALoop) : list string :=
  match list.last (executionHistory this) with
  | Some lastExecution =>
      match error lastExecution with
      | Some e =>
          if truthy (VStr e) then ["Action failure: " +:+ action lastExecution]
          else []
      | None => []
      end
  | None => []
  end.

Definition observe (this : OODALoop) : M Observations :=
  let* snapshot := GOAPState.clone (worldState this) in
  ret (mkObservations snapshot (currentStep this)
         (match currentPlan this with Some plan => length plan | None => 0%nat end)
         (list.last (executionHistory this))
         (detectAnomalies this)).

(** [unexpected] is the outcome of [Math.random() < 0.1], drawn only
    when [currentStep] is not 0. *)
Definition hasStateChangedUnexpectedly (this : OODALoop)
    (observations : Observations) (unexpected : bool) : bool :=
  if (currentStep this =? 0)%nat then false else unexpected.

Definition isPlanStillValid (this : OODALoop) : M bool :=
  match currentPlan this with
  | None => ret false
  | Some plan =>
      if (length plan <=? currentStep this)%nat then ret false
      else
        every (fun action => GOAPAction.isApplicable action (worldState this))
              (drop (currentStep this) plan)
  end.

Definition isGoalStillReachable (this : OODALoop) : M bool :=
  let* testPlan :=
    GOAPPlanner.generatePlan (planner this) (worldState this) (goalState this) in
  ret (bool_decide (testPlan ≠ None)).

Definition orient (this : OODALoop) (observations : Observations)
    (unexpected : bool) : M Analysis :=
  let stateChanged := hasStateChangedUnexpectedly this observations unexpected in
  let* planValid := isPlanStillValid this in
  let* goalReachable := isGoalStillReachable this in
  ret (mkAnalysis stateChanged planValid goalReachable
         (stateChanged || negb planValid || negb goalReachable
          || (0 <? length (anomalies observations))%nat)).

Definition decide (this : OODALoop) (analysis : Analysis) : M Decision :=
  if needsReplanning analysis
  then ret (mkDecision Replan "Conditions changed, replanning required")
  else
    match currentPlan this with
    | None => throw null_length
    | Some plan =>
        if (length plan <=? currentStep this)%nat
        then ret (mkDecision Complete "All actions completed")
        else ret (mkDecision Continue "Plan execution proceeding normally")
    end.

(** [now] is what [new Date().toISOString()] gives when the entry is
    pushed. *)
Definition executeNextAction (this : OODALoop) (now : string) : M OODALoop :=
  match currentPlan this with
  | None => throw null_length
  | Some plan =>
      match plan !! currentStep this with
      | None => ret this
      | Some action =>
          try_catch
            (let* result := GOAPAction.execute action in
             let* worldState' := GOAPAction.apply action (worldState this) in
             ret (mkLoop (planner this) (currentPlan this) (S (currentStep this))
                    worldState' (goalState this)
                    (executionHistory this ++
                       [mkEntry (StepIndex (currentStep this)) (name action)
                          (Some result) None None now])
                    (monitoring this)))
            (fun message =>
               ret (mkLoop (planner this) (currentPlan this) (currentStep this)
                      (worldState this) (goalState this)
                      (executionHistory this ++
                         [mkEntry (StepIndex (currentStep this)) (name action)
                            None (Some message) None now])
                      (monitoring this)))
      end
  end.

(** An array, empty or not, is truthy: only [null] takes the else
    branch. *)
Definition replan (this : OODALoop) (now : string) : M OODALoop :=
  let* newPlan :=
    GOAPPlanner.generatePlan (planner this) (worldState this) (goalState this) in
  match newPlan with
  | Some plan =>
      ret (mkLoop (planner this) (Some plan) 0 (worldState this) (goalState this)
             (executionHistory this ++
                [mkEntry StepReplan "plan_updated" None None
                   (Some (map name plan)) now])
             (monitoring this))
  | None =>
      ret (mkLoop (planner this) (currentPlan this) (currentStep this)
             (worldState this) (goalState this) (executionHistory this) false)
  end.

Definition act (this : OODALoop) (decision : Decision) (now : string) : M OODALoop :=
  match decision_action decision with
  | Replan => replan this now
  | Continue => executeNextAction this now
  | Complete =>
      ret (mkLoop (planner this) (currentPlan this) (currentStep this)
             (worldState this) (goalState this) (executionHistory this) false)
  end.

(** One pass through the body of the [while (this.monitoring)] loop of
    [runOODALoop]. *)
Definition cycle (this : OODALoop) (unexpected : bool) (now : string) : M OODALoop :=
  let* observations := observe this in
  let* analysis := orient this observations unexpected in
  let* decision := decide this analysis in
  act this decision now.

(** [runOODALoop] through at most as many passes as there are draws in
    [world], each giving the pass its random outcome and its clock. *)
Fixpoint run_cycles (this : OODALoop) (world : list (bool * string)) : M OODALoop :=
  match world with
  | [] => ret this
  | (unexpected, now) :: world' =>
      if monitoring this
      then let* this' := cycle this unexpected now in run_cycles this' world'
      else ret this
  end.

Definition runOODALoop (this : OODALoop) (world : list (bool * string)) : M OODALoop :=
  run_cycles
    (mkLoop (planner this) (currentPlan this) (currentStep this)
       (worldState this) (goalState this) (executionHistory this) true)
    world.

End OODALoop.

(** ** goap-final-demo.js: the OODA simulation of [demonstrateOODAComponents] *)

(** How the simulation loop ends: by its [COMPLETE] branch, by its
    [REPLAN] branch, or with its cycles used up. *)
Inductive SimulationEnd : Type := Completed | ReplanNeeded | CyclesOver.

Module FinalGOAPDemo.

(** The loop [for (let cycle = 1; cycle <= 3; cycle++)], with [cycles]
    passes left: it returns how it ended, [currentState] and
    [currentStep]. *)
Fixpoint simulation_cycles (cycles : nat) (plan : list GOAPAction)
    (currentState : ref) (currentStep : nat) : M (SimulationEnd * ref * nat) :=
  match cycles with
  | O => ret (CyclesOver, currentState, currentStep)
  | S cycles' =>
      let* planValid :=
        match plan !! currentStep with
        | Some action => GOAPAction.isApplicable action currentState
        | None => ret false
        end in
      match plan !! currentStep with
      | None => ret (Completed, currentState, currentStep)
      | Some action =>
          if planValid then
            let* currentState' := GOAPAction.apply action currentState in
            simulation_cycles cycles' plan currentState' (S currentStep)
          else ret (ReplanNeeded, currentState, currentStep)
      end
  end.

(** The simulation of [plan] from a clone of the scenario's initial
    state. *)
Definition simulation (plan : list GOAPAction) (initial : ref)
  : M (SimulationEnd * ref * nat) :=
  let* currentState := GOAPState.clone initial in
  simulation_cycles 3 plan currentState 0.

End FinalGOAPDemo.

(** * The vocabulary of the properties *)

(** ** What the methods of [GOAPState] compute on the receiver's map *)

(** The value [get] finds for [key] in a state whose map is [m]. *)
Definition lookup_value (m : JSMap) (key : string) : value :=
  or_else (map_get m key) (VBool false).

(** The verdict of [satisfies] in a state whose map is [m]. *)
Definition holds (m : JSMap) (conditions : Obj) : bool :=
  forallb (fun kv => strict_eq (lookup_value m kv.1) kv.2) conditions.

(** The map of the clone of a state whose map is [m]. *)
Definition cloned (m : JSMap) : JSMap :=
  map_of_entries (Object_entries (Object_fromEntries m)).

(** The map of the state [applyEffects] builds from one whose map is
    [m]. *)
Definition overwritten (m : JSMap) (effects : Obj) : JSMap :=
  fold_left (fun m' kv => map_set m' kv.1 kv.2) effects (cloned m).

Definition distance_from (m : JSMap) (goal : entries) (d : Z) : Z :=
  fold_left
    (fun d' kv => if negb (strict_eq (lookup_value m kv.1) kv.2) then d' + 1 else d')
    goal d.

(** ** Plans and frontier nodes *)

(** Running [plan] from a state whose map is [m] with [g] already
    spent: the map reached and the cost accumulated, provided every
    action is in the repertoire, is applicable where it is applied, and
    leaves the accumulated cost within [maxSearchDepth]. *)
Fixpoint plan_run (this : GOAPPlanner) (m : JSMap) (g : Z)
    (plan : list GOAPAction) : option (JSMap * Z) :=
  match plan with
  | [] => Some (m, g)
  | a :: plan' =>
      if bool_decide (a ∈ GOAPPlanner.actions_values this)
         && holds m (preconditions a)
         && (g + cost a <=? maxSearchDepth this)
      then plan_run this (overwritten m (effects a)) (g + cost a) plan'
      else None
  end.

(** A frontier node is reached from the start map [m0]: its path runs,
    ends in the node's state and costs the node's [cost]. *)
Definition node_ok (this : GOAPPlanner) (m0 : JSMap) (h : heap) (n : GOAPNode)
  : Prop :=
  (GOAPNode.state n < length h)%nat
  /\ plan_run this m0 0 (GOAPNode.getPath n)
     = Some (heap_read h (GOAPNode.state n), GOAPNode.cost n).

(** The effects of the actions of [plan] applied in order, from the
    state [s]: [plan.reduce((s, a) => s.applyEffects(a.effects), s)]. *)
Fixpoint applyEffects_in_order (s : ref) (plan : list GOAPAction) : M ref :=
  match plan with
  | [] => ret s
  | a :: plan' =>
      let* s' := GOAPState.applyEffects s (effects a) in
      applyEffects_in_order s' plan'
  end.


(** The cost of a plan, as [analyzePlan] sums it. *)
Definition plan_cost (plan : list GOAPAction) : Z :=
  totalCost (GOAPPlanner.analyzePlan plan).
Arguments plan_cost : simpl never.


Definition effects_in_order (m : JSMap) (plan : list GOAPAction) : JSMap :=
  fold_left (fun m' a => overwritten m' (effects a)) plan m.

(** ** The scenarios of the deployment chain *)

Module Scenario.

Definition yes : value := VBool true.

Definition create : GOAPAction :=
  mkAction "create" [] [("exists"%string, yes)] 1 "code".
Definition code : GOAPAction :=
  mkAction "code" [("exists"%string, yes)] [("coded"%string, yes)] 3 "code".
Definition deploy : GOAPAction :=
  mkAction "deploy" [("coded"%string, yes)] [("deployed"%string, yes)] 2 "code".
Definition quickdeploy : GOAPAction :=
  mkAction "quickdeploy" [("coded"%string, yes)] [("deployed"%string, yes)] 1 "code".

(** A planner on which [addAction] was called with the actions of
    [order], in that order. *)
Definition planner_with (order : list GOAPAction) : GOAPPlanner :=
  fold_left GOAPPlanner.addAction order GOAPPlanner.new.

Definition plannerA : GOAPPlanner := planner_with [create; code; deploy].
Definition plannerB : GOAPPlanner := planner_with [create; code; deploy; quickdeploy].

Definition deployed : Obj := [("deployed"%string, yes)].

(** [generatePlan(new GOAPState({}), new GOAPState({deployed: true}))]
    on a heap without other states. *)
Definition plan_deployment (planner : GOAPPlanner)
  : outcome (option (list GOAPAction)) * heap :=
  (let* start := GOAPState.new [] in
   let* goal := GOAPState.new deployed in
   GOAPPlanner.generatePlan planner start goal) [].

(** The heap holding the start state [{}] at 0 and the goal state
    [{deployed: true}] at 1. *)
Definition heap0 : heap := [[]; deployed].

End Scenario.

(** ** Durations *)

(** The duration of one action by execution strategy, as the table
    [baseTime] and its default give it. *)
Definition strategy_duration (executionType : string) : Z :=
  if bool_decide (executionType = "code"%string) then 100
  else if bool_decide (executionType = "llm"%string) then 200
  else if bool_decide (executionType = "hybrid"%string) then 250
  else 100.

(** ** Loops of the scenarios *)

Module LoopScenario.

(** A loop on the one-action plan [create], toward the goal
    [{exists: true}] (state 1), from the world [{}] (state 0). *)
Definition heap0 : heap := [[]; [("exists"%string, Scenario.yes)]].

Definition loop0 : OODALoop :=
  mkLoop Scenario.plannerA (Some [Scenario.create]) 0 0 1 [] true.

(** The same loop after its only action has executed successfully:
    [currentStep] is the plan's length, the world is the clone that
    [apply] made (state 4), and the last entry has no error. *)
Definition heap1 : heap :=
  [[]; [("exists"%string, Scenario.yes)]; [];
   [("exists"%string, Scenario.yes)]; [("exists"%string, Scenario.yes)]].

Definition loop1 : OODALoop :=
  mkLoop Scenario.plannerA (Some [Scenario.create]) 1 4 1
    [mkEntry (StepIndex 0) "create" (Some ResultCode) None None "t1"] true.

(** An action whose execution strategy is none of the three known
    ones: [execute] throws on it. *)
Definition teleport : GOAPAction :=
  mkAction "teleport" [] [("exists"%string, Scenario.yes)] 1 "quantum".

Definition loop_teleport : OODALoop :=
  mkLoop (Scenario.planner_with [teleport]) (Some [teleport]) 0 0 1 [] true.

End LoopScenario.

(** ** Property order *)

(** The entry's key is not an array index. *)
Definition named (kv : string * value) : Prop := array_index kv.1 = None.

(** Both keys are array indices, the first one the smaller. *)
Definition index_lt (a b : string * value) : Prop :=
  match array_index a.1, array_index b.1 with
  | Some i, Some j => (i < j)%N
  | _, _ => False
  end.

(** ** The repertoire and the groups of [analyzePlan] *)

(** The repertoire holds each name once, and holds every action under
    its own name. *)
Definition repertoire_ok (this : GOAPPlanner) : Prop :=
  NoDup (actions this).*1
  /\ Forall (fun kb => kb.1 = name kb.2) (actions this).

(** Any two actions at different places of [group] can run in
    parallel. *)
Definition pairwise_parallel (group : list GOAPAction) : Prop :=
  forall i j a b,
    i <> j -> group !! i = Some a -> group !! j = Some b ->
    GOAPPlanner.canRunInParallel a b = true.

(** What the loop of [findParallelizableActions] keeps true of the
    group it is filling. *)
Definition group_ok (group : list GOAPAction) : Prop :=
  (length group <= 3)%nat /\ pairwise_parallel group.

(** ** Passes of the loop *)

(** What a pass of the loop may change, from the loop object [this] in
    the heap [h] to [this'] in [h']: the heap and the history only grow,
    the history by one entry at most, and the planner and the goal
    stay. *)
Definition loop_step (this : OODALoop) (h : heap) (this' : OODALoop) (h' : heap)
  : Prop :=
  h `prefix_of` h'
  /\ planner this' = planner this
  /\ goalState this' = goalState this
  /\ (exists es, executionHistory this' = executionHistory this ++ es
                 /\ (length es <= 1)%nat).

(** Two maps that every [get] and every [clone] treat alike. *)
Definition same_state (m1 m2 : JSMap) : Prop :=
  (forall k, lookup_value m1 k = lookup_value m2 k) /\ cloned m1 = cloned m2.

(** * Properties *)

(** ** The methods of [GOAPState] on the heap *)

Section Heap.

Implicit Types (h : heap) (r : ref) (m : JSMap).

Lemma heap_read_app_l h t r :
  (r < length h)%nat -> heap_read (h ++ t) r = heap_read h r.
Proof. intros Hr. unfold heap_read. by rewrite lookup_app_l. Qed.

Lemma heap_read_fresh h m : heap_read (h ++ [m]) (length h) = m.
Proof. unfold heap_read. by rewrite list_lookup_middle. Qed.

Lemma heap_read_prefix h h' r :
  h `prefix_of` h' -> (r < length h)%nat -> heap_read h' r = heap_read h r.
Proof. intros [t ->] Hr. by apply heap_read_app_l. Qed.

Lemma prefix_lookup_old h h' r :
  h `prefix_of` h' -> (r < length h)%nat -> h' !! r = h !! r.
Proof. intros [t ->] Hr. by rewrite lookup_app_l. Qed.

Lemma get_run r key h :
  GOAPState.get r key h = (Return (lookup_value (heap_read h r) key), h).
Proof. reflexivity. Qed.

Lemma satisfies_run r conditions h :
  GOAPState.satisfies r conditions h = (Return (holds (heap_read h r) conditions), h).
Proof.
  unfold GOAPState.satisfies, Object_entries, holds.
  induction conditions as [|kv conditions IH]; [reflexivity|].
  cbn [every forallb]. unfold bind. rewrite get_run. cbn.
  destruct (strict_eq _ _); [exact IH | reflexivity].
Qed.

Lemma clone_run r h :
  GOAPState.clone r h = (Return (length h), h ++ [cloned (heap_read h r)]).
Proof. reflexivity. Qed.

Lemma set_run r key v h :
  GOAPState.set r key v h = (Return tt, <[r := map_set (heap_read h r) key v]> h).
Proof. reflexivity. Qed.

Lemma forEach_set_fresh (es : entries) h m :
  forEach (fun kv => GOAPState.set (length h) kv.1 kv.2) es (h ++ [m])
  = (Return tt, h ++ [fold_left (fun m' kv => map_set m' kv.1 kv.2) es m]).
Proof.
  revert m. induction es as [|kv es IH]; intros m; [reflexivity|].
  cbn [forEach fold_left]. unfold bind. rewrite set_run.
  rewrite heap_read_fresh.
  replace (<[length h := map_set m kv.1 kv.2]> (h ++ [m]))
    with (h ++ [map_set m kv.1 kv.2]).
  - apply IH.
  - rewrite insert_app_r_alt by lia. by rewrite Nat.sub_diag.
Qed.

Lemma applyEffects_run r effects h :
  GOAPState.applyEffects r effects h
  = (Return (length h), h ++ [overwritten (heap_read h r) effects]).
Proof.
  unfold GOAPState.applyEffects, bind. rewrite clone_run.
  unfold Object_entries. rewrite forEach_set_fresh. reflexivity.
Qed.

Lemma getDistance_loop_run r (es : entries) d h :
  GOAPState.getDistance_loop r es d h
  = (Return (distance_from (heap_read h r) es d), h).
Proof.
  revert d. induction es as [|[key v] es IH]; intros d; [reflexivity|].
  cbn [GOAPState.getDistance_loop]. unfold bind. rewrite get_run.
  rewrite IH. reflexivity.
Qed.

Lemma getDistance_run r goalState h :
  GOAPState.getDistance r goalState h
  = (Return (distance_from (heap_read h r) (heap_read h goalState) 0), h).
Proof.
  unfold GOAPState.getDistance, bind, read_state. apply getDistance_loop_run.
Qed.

Lemma toString_run r h :
  GOAPState.toString r h
  = (Return (JSON_stringify (Object_fromEntries (heap_read h r))), h).
Proof. reflexivity. Qed.

Lemma isApplicable_run a r h :
  GOAPAction.isApplicable a r h = (Return (holds (heap_read h r) (preconditions a)), h).
Proof. apply satisfies_run. Qed.

Lemma apply_run_applicable a r h :
  holds (heap_read h r) (preconditions a) = true ->
  GOAPAction.apply a r h
  = (Return (length h), h ++ [overwritten (heap_read h r) (effects a)]).
Proof.
  intros Hp. unfold GOAPAction.apply, bind.
  rewrite isApplicable_run, Hp. cbn. apply applyEffects_run.
Qed.

Lemma apply_run_inapplicable a r h :
  holds (heap_read h r) (preconditions a) = false ->
  GOAPAction.apply a r h
  = (Throw ("Action " +:+ name a +:+ " not applicable in current state"), h).
Proof.
  intros Hp. unfold GOAPAction.apply, bind.
  rewrite isApplicable_run, Hp. reflexivity.
Qed.

End Heap.

(** ** The search of [generatePlan] *)

Lemma bind_Return {A B} (c : M A) (k : A -> M B) h a h' :
  c h = (Return a, h') -> bind c k h = k a h'.
Proof. intros Hc. unfold bind. by rewrite Hc. Qed.

Lemma getPath_loop_app :
  forall n path, GOAPNode.getPath_loop n path = GOAPNode.getPath n ++ path.
Proof.
  fix IH 1. intros [s [[a p]|] c x t] path; cbn.
  - rewrite (IH p [a]), (IH p (a :: path)). by rewrite <- app_assoc.
  - reflexivity.
Qed.

Lemma getPath_child s a p c x t :
  GOAPNode.getPath (mkNode s (Some (a, p)) c x t) = GOAPNode.getPath p ++ [a].
Proof. unfold GOAPNode.getPath at 1. cbn. apply getPath_loop_app. Qed.

Lemma Forall_sort_insert (P : GOAPNode -> Prop) n l :
  P n -> Forall P l -> Forall P (GOAPPlanner.sort_insert n l).
Proof.
  intros Hn Hl. induction Hl as [|x l Hx Hl IH]; cbn.
  - by constructor.
  - destruct (_ <=? _); repeat constructor; auto.
Qed.

Lemma Forall_sort_by_totalCost (P : GOAPNode -> Prop) l :
  Forall P l -> Forall P (GOAPPlanner.sort_by_totalCost l).
Proof.
  induction 1 as [|x l Hx Hl IH]; cbn; [constructor|].
  by apply Forall_sort_insert.
Qed.

Section Search.

Variable this : GOAPPlanner.

Lemma plan_run_snoc m g plan a :
  plan_run this m g (plan ++ [a])
  = match plan_run this m g plan with
    | Some (m', g') => plan_run this m' g' [a]
    | None => None
    end.
Proof.
  revert m g. induction plan as [|b plan IH]; intros m g.
  - cbn [app plan_run]. reflexivity.
  - cbn [app plan_run]. destruct (_ && _); [apply IH | reflexivity].
Qed.

Lemma node_ok_prefix m0 h h' n :
  h `prefix_of` h' -> node_ok this m0 h n -> node_ok this m0 h' n.
Proof.
  intros Hp [Hlt Hrun]. split.
  - apply prefix_length in Hp. lia.
  - by rewrite (heap_read_prefix h h').
Qed.

Lemma Forall_node_ok_prefix m0 h h' os :
  h `prefix_of` h' -> Forall (node_ok this m0 h) os -> Forall (node_ok this m0 h') os.
Proof.
  intros Hp. induction 1; constructor; [by eapply node_ok_prefix | done].
Qed.

Lemma explore_returns goal cur acts os h :
  exists os' h',
    GOAPPlanner.explore this goal cur acts os h = (Return os', h')
    /\ h `prefix_of` h'.
Proof.
  revert os h. induction acts as [|a acts IH]; intros os h.
  - exists os, h. split; [reflexivity | done].
  - cbn [GOAPPlanner.explore].
    rewrite (bind_Return _ _ _ _ _ (isApplicable_run a _ h)).
    destruct (holds _ _) eqn:Hp; [|apply IH].
    rewrite (bind_Return _ _ _ _ _ (apply_run_applicable a _ h Hp)).
    destruct (_ >? _).
    + destruct (IH os (h ++ [overwritten (heap_read h (GOAPNode.state cur)) (effects a)]))
        as (os' & h' & Hrun & Hpre).
      exists os', h'. split; [exact Hrun|].
      etrans; [|exact Hpre]. by apply prefix_app_r.
    + rewrite (bind_Return _ _ _ _ _ (getDistance_run _ _ _)).
      match goal with |- context [GOAPPlanner.explore _ _ _ _ ?os1 ?h1] =>
        destruct (IH os1 h1) as (os' & h' & Hrun & Hpre) end.
      exists os', h'. split; [exact Hrun|].
      etrans; [|exact Hpre]. by apply prefix_app_r.
Qed.

Lemma explore_ok m0 goal cur acts os h os' h' :
  node_ok this m0 h cur ->
  Forall (node_ok this m0 h) os ->
  Forall (fun a => a ∈ GOAPPlanner.actions_values this) acts ->
  GOAPPlanner.explore this goal cur acts os h = (Return os', h') ->
  Forall (node_ok this m0 h') os'.
Proof.
  revert os h. induction acts as [|a acts IH]; intros os h Hcur Hos Hacts.
  - cbn. intros [= <- <-]. exact Hos.
  - inversion Hacts as [|? ? Ha Hacts']; subst. clear Hacts. rename Hacts' into Hacts.
    cbn [GOAPPlanner.explore].
    rewrite (bind_Return _ _ _ _ _ (isApplicable_run a _ h)).
    destruct (holds _ _) eqn:Hp; [|by apply IH].
    rewrite (bind_Return _ _ _ _ _ (apply_run_applicable a _ h Hp)).
    set (h1 := h ++ [overwritten (heap_read h (GOAPNode.state cur)) (effects a)]).
    assert (Hpre : h `prefix_of` h1) by (by apply prefix_app_r).
    destruct (_ >? _) eqn:Hcap.
    + apply IH; [by eapply node_ok_prefix| |done].
      by eapply Forall_node_ok_prefix.
    + rewrite (bind_Return _ _ _ _ _ (getDistance_run _ _ _)).
      apply IH; [by eapply node_ok_prefix| |done].
      apply Forall_app. split.
      * by eapply Forall_node_ok_prefix.
      * constructor; [|constructor].
        destruct Hcur as [Hlt Hrun]. split.
        -- cbn. unfold h1. rewrite length_app. cbn. lia.
        -- rewrite getPath_child, plan_run_snoc, Hrun. cbn [plan_run GOAPNode.state GOAPNode.cost].
           rewrite bool_decide_true by done. rewrite Hp.
           replace (_ <=? _) with true by lia. cbn.
           unfold h1. by rewrite heap_read_fresh.
Qed.

Lemma search_returns goal remaining os closed h :
  exists r h',
    GOAPPlanner.search this goal remaining os closed h = (Return r, h')
    /\ h `prefix_of` h'.
Proof.
  revert os closed h. induction remaining as [|remaining IH]; intros os closed h.
  - exists None, h. split; [reflexivity | done].
  - cbn [GOAPPlanner.search].
    destruct (GOAPPlanner.sort_by_totalCost os) as [|cur os1].
    { exists None, h. split; [reflexivity | done]. }
    rewrite (bind_Return _ _ _ (heap_read h goal) h) by reflexivity.
    rewrite (bind_Return _ _ _ _ _ (satisfies_run _ _ h)).
    destruct (holds _ _).
    { eexists _, h. split; [reflexivity | done]. }
    rewrite (bind_Return _ _ _ _ _ (toString_run _ h)).
    destruct (bool_decide _); [apply IH|].
    destruct (explore_returns goal cur (GOAPPlanner.actions_values this) os1 h)
      as (os2 & h1 & Hexp & Hpre).
    rewrite (bind_Return _ _ _ _ _ Hexp).
    match goal with |- context [GOAPPlanner.search _ _ _ _ ?cl h1] =>
      destruct (IH os2 cl h1) as (r & h' & Hrun & Hpre') end.
    exists r, h'. split; [exact Hrun | by etrans].
Qed.

Lemma search_ok m0 goal remaining os closed h plan h' :
  Forall (node_ok this m0 h) os ->
  GOAPPlanner.search this goal remaining os closed h = (Return (Some plan), h') ->
  exists mf g,
    plan_run this m0 0 plan = Some (mf, g)
    /\ holds mf (Object_fromEntries (heap_read h' goal)) = true.
Proof.
  revert os closed h. induction remaining as [|remaining IH]; intros os closed h Hos.
  - cbn. intros [=].
  - cbn [GOAPPlanner.search].
    apply Forall_sort_by_totalCost in Hos.
    destruct (GOAPPlanner.sort_by_totalCost os) as [|cur os1]; [intros [=]|].
    inversion Hos as [|? ? Hcur Hos1]; subst.
    rewrite (bind_Return _ _ _ (heap_read h goal) h) by reflexivity.
    rewrite (bind_Return _ _ _ _ _ (satisfies_run _ _ h)).
    destruct (holds _ _) eqn:Hgoal.
    { intros [= <- <-]. destruct Hcur as [_ Hrun]. eauto. }
    rewrite (bind_Return _ _ _ _ _ (toString_run _ h)).
    destruct (bool_decide _); [by apply IH|].
    destruct (explore_returns goal cur (GOAPPlanner.actions_values this) os1 h)
      as (os2 & h1 & Hexp & Hpre).
    rewrite (bind_Return _ _ _ _ _ Hexp).
    apply IH. eapply explore_ok; [exact Hcur | exact Hos1 | | exact Hexp].
    apply list.Forall_forall. auto.
Qed.

Lemma generatePlan_returns start goal h :
  exists r h',
    GOAPPlanner.generatePlan this start goal h = (Return r, h')
    /\ h `prefix_of` h'.
Proof.
  unfold GOAPPlanner.generatePlan.
  rewrite (bind_Return _ _ _ _ _ (getDistance_run _ _ _)).
  apply search_returns.
Qed.

Lemma generatePlan_ok start goal h plan h' :
  (start < length h)%nat ->
  GOAPPlanner.generatePlan this start goal h = (Return (Some plan), h') ->
  exists mf g,
    plan_run this (heap_read h start) 0 plan = Some (mf, g)
    /\ holds mf (Object_fromEntries (heap_read h' goal)) = true.
Proof.
  intros Hstart. unfold GOAPPlanner.generatePlan.
  rewrite (bind_Return _ _ _ _ _ (getDistance_run _ _ _)).
  apply search_ok. constructor; [|constructor].
  split; [exact Hstart | reflexivity].
Qed.

End Search.

(** ** Plans run on the heap *)

Lemma applyEffects_in_order_run s plan h :
  (s < length h)%nat ->
  exists final h',
    applyEffects_in_order s plan h = (Return final, h')
    /\ h `prefix_of` h'
    /\ (final < length h')%nat
    /\ heap_read h' final = effects_in_order (heap_read h s) plan.
Proof.
  revert s h. induction plan as [|a plan IH]; intros s h Hs.
  - exists s, h. repeat split; done.
  - cbn [applyEffects_in_order effects_in_order fold_left].
    rewrite (bind_Return _ _ _ _ _ (applyEffects_run s (effects a) h)).
    destruct (IH (length h) (h ++ [overwritten (heap_read h s) (effects a)]))
      as (final & h' & Hrun & Hpre & Hlt & Hread).
    { rewrite length_app. cbn. lia. }
    exists final, h'. split; [exact Hrun|]. split; [|split; [exact Hlt|]].
    + etrans; [|exact Hpre]. by apply prefix_app_r.
    + rewrite Hread, heap_read_fresh. reflexivity.
Qed.

Lemma plan_cost_fold plan g :
  fold_left (fun sum a => sum + cost a) plan g = g + plan_cost plan.
Proof.
  unfold plan_cost, GOAPPlanner.analyzePlan. cbn [totalCost]. revert g.
  induction plan as [|a plan IH]; intros g; cbn [fold_left]; [lia|].
  rewrite (IH (g + cost a)), (IH (0 + cost a)). lia.
Qed.

Lemma plan_cost_cons a plan : plan_cost (a :: plan) = cost a + plan_cost plan.
Proof.
  unfold plan_cost at 1, GOAPPlanner.analyzePlan. cbn [totalCost fold_left].
  apply plan_cost_fold.
Qed.

Section PlanRun.

Variable this : GOAPPlanner.

Lemma plan_run_effects m g plan mf c :
  plan_run this m g plan = Some (mf, c) -> mf = effects_in_order m plan.
Proof.
  revert m g. induction plan as [|a plan IH]; intros m g; cbn.
  - by intros [= <- _].
  - destruct (_ && _); [apply IH | intros [=]].
Qed.

Lemma plan_run_registered m g plan mf c :
  plan_run this m g plan = Some (mf, c) ->
  Forall (fun a => a ∈ GOAPPlanner.actions_values this) plan.
Proof.
  revert m g. induction plan as [|a plan IH]; intros m g; cbn; [constructor|].
  destruct (bool_decide _) eqn:Ha; cbn; [|intros [=]].
  destruct (_ && _); [|intros [=]].
  intros Hrun. constructor; [by apply bool_decide_eq_true in Ha | by eapply IH].
Qed.

Lemma plan_run_within_cap m g plan mf c :
  plan_run this m g plan = Some (mf, c) ->
  forall p, p `prefix_of` plan -> p <> [] -> g + plan_cost p <= maxSearchDepth this.
Proof.
  revert m g. induction plan as [|a plan IH]; intros m g; cbn [plan_run].
  - intros _ p Hp Hne. apply prefix_nil_inv in Hp. done.
  - destruct (bool_decide _); cbn; [|intros [=]].
    destruct (holds _ _); cbn; [|intros [=]].
    destruct (_ <=? _) eqn:Hcap; [|intros [=]].
    intros Hrun [|b p] Hp Hne; [done|].
    apply prefix_cons_inv_1 in Hp as Hb. subst b.
    apply prefix_cons_inv_2 in Hp.
    rewrite plan_cost_cons. apply Z.leb_le in Hcap.
    destruct p as [|b p'].
    + unfold plan_cost, GOAPPlanner.analyzePlan; cbn; lia.
    + specialize (IH _ _ Hrun (b :: p') Hp ltac:(done)). lia.
Qed.



End PlanRun.

(** ** The planner *)

(** C1. Soundness of [generatePlan]: when it returns a plan for a start
    and a goal state, applying the effects of the plan's actions in order
    with [applyEffects], from the start state, gives a state on which
    [satisfies] is true of the goal's propositions. *)
Theorem generatePlan_sound this start goal h plan h' :
  (start < length h)%nat ->
  (goal < length h)%nat ->
  GOAPPlanner.generatePlan this start goal h = (Return (Some plan), h') ->
  exists final h'',
    applyEffects_in_order start plan h' = (Return final, h'')
    /\ GOAPState.satisfies final (Object_fromEntries (heap_read h'' goal)) h''
       = (Return true, h'').
Proof.
  intros Hstart Hgoal Hgen.
  destruct (generatePlan_returns this start goal h) as (r & h1 & Hret & Hpre).
  rewrite Hgen in Hret. injection Hret as <- <-.
  destruct (generatePlan_ok this start goal h plan h' Hstart Hgen)
    as (mf & c & Hrun & Hholds).
  pose proof (prefix_length _ _ Hpre) as Hlen.
  destruct (applyEffects_in_order_run start plan h') as (final & h2 & Heff & Hpre2 & _ & Hread);
    [lia|].
  exists final, h2. split; [exact Heff|].
  rewrite satisfies_run, Hread.
  rewrite (heap_read_prefix h' h2 goal) by (done || lia).
  rewrite (heap_read_prefix h h' start) by done.
  rewrite <- (plan_run_effects _ _ _ _ _ _ Hrun). by rewrite Hholds.
Qed.

Lemma generatePlan_sound_witness :
  exists plan h',
    GOAPPlanner.generatePlan Scenario.plannerA 0%nat 1%nat Scenario.heap0
    = (Return (Some plan), h')
    /\ exists final h'',
         applyEffects_in_order 0%nat plan h' = (Return final, h'')
         /\ GOAPState.satisfies final (Object_fromEntries (heap_read h'' 1%nat)) h''
            = (Return true, h'').
Proof.
  eexists _, _. split; [vm_compute; reflexivity|].
  apply (generatePlan_sound Scenario.plannerA 0%nat 1%nat Scenario.heap0);
    [cbn; lia | cbn; lia | vm_compute; reflexivity].
Defined.



Lemma search_first_node_at_goal this goal remaining cur closed h :
  GOAPState.satisfies (GOAPNode.state cur) (Object_fromEntries (heap_read h goal)) h
  = (Return true, h) ->
  GOAPPlanner.search this goal (S remaining) [cur] closed h
  = (Return (Some (GOAPNode.getPath cur)), h).
Proof.
  intros Hsat.
  cbn [GOAPPlanner.search GOAPPlanner.sort_by_totalCost foldr GOAPPlanner.sort_insert].
  rewrite (bind_Return _ _ _ (heap_read h goal) h) by reflexivity.
  rewrite (bind_Return _ _ _ _ _ Hsat). reflexivity.
Qed.

(** C9. A goal the start state already satisfies gives the empty plan,
    not [null], with any repertoire. *)
Theorem generatePlan_goal_already_satisfied this start goal h :
  GOAPState.satisfies start (Object_fromEntries (heap_read h goal)) h
  = (Return true, h) ->
  GOAPPlanner.generatePlan this start goal h = (Return (Some []), h).
Proof.
  intros Hsat. unfold GOAPPlanner.generatePlan.
  rewrite (bind_Return _ _ _ _ _ (getDistance_run _ _ _)).
  exact (search_first_node_at_goal this goal 999 (mkNode start None 0 _ _) [] h Hsat).
Qed.

Lemma generatePlan_goal_already_satisfied_witness :
  GOAPPlanner.generatePlan Scenario.plannerB 0%nat 1%nat
    [Scenario.deployed; Scenario.deployed]
  = (Return (Some []), [Scenario.deployed; Scenario.deployed]).
Proof.
  apply (generatePlan_goal_already_satisfied Scenario.plannerB 0%nat 1%nat).
  vm_compute. reflexivity.
Defined.

(** C10. [generatePlan] leaves its arguments as they were: the search
    only allocates new states (the heap after the call extends the heap
    before it), so the maps of the start and of the goal state are the
    same after the call. *)
Theorem generatePlan_preserves_arguments this start goal h r h' :
  (start < length h)%nat ->
  (goal < length h)%nat ->
  GOAPPlanner.generatePlan this start goal h = (r, h') ->
  h `prefix_of` h' /\ h' !! start = h !! start /\ h' !! goal = h !! goal.
Proof.
  intros Hstart Hgoal Hgen.
  destruct (generatePlan_returns this start goal h) as (r1 & h1 & Hret & Hpre).
  rewrite Hgen in Hret. injection Hret as -> <-.
  split; [exact Hpre|]. split; by apply prefix_lookup_old.
Qed.

Lemma generatePlan_preserves_arguments_witness :
  let h' := (GOAPPlanner.generatePlan Scenario.plannerB 0%nat 1%nat Scenario.heap0).2 in
  Scenario.heap0 `prefix_of` h'
  /\ h' !! 0%nat = Some [] /\ h' !! 1%nat = Some Scenario.deployed.
Proof.
  intros h'.
  apply (generatePlan_preserves_arguments Scenario.plannerB 0%nat 1%nat Scenario.heap0
           (GOAPPlanner.generatePlan Scenario.plannerB 0%nat 1%nat Scenario.heap0).1);
    [cbn; lia | cbn; lia |].
  unfold h'. by destruct (GOAPPlanner.generatePlan _ _ _ _).
Defined.

(** C5. Scenario B: with [create], [code], [deploy] and [quickdeploy]
    registered (in any order), planning from the empty state to
    [{deployed: true}] returns exactly [create, code, quickdeploy], of
    total cost 5, and not the plan of cost 6 that ends in [deploy]. *)
Theorem scenario_B_prefers_quickdeploy order :
  order ≡ₚ [Scenario.create; Scenario.code; Scenario.deploy; Scenario.quickdeploy] ->
  (Scenario.plan_deployment (Scenario.planner_with order)).1
  = Return (Some [Scenario.create; Scenario.code; Scenario.quickdeploy])
  /\ plan_cost [Scenario.create; Scenario.code; Scenario.quickdeploy] = 5
  /\ plan_cost [Scenario.create; Scenario.code; Scenario.deploy] = 6.
Proof.
  intros Hperm. split; [|split; reflexivity].
  symmetry in Hperm. apply permutations_Permutation in Hperm.
  revert order Hperm. apply list.Forall_forall.
  let l := eval vm_compute in
    (permutations [Scenario.create; Scenario.code; Scenario.deploy; Scenario.quickdeploy])
  in change (permutations _) with l.
  repeat (constructor; [vm_compute; reflexivity|]). constructor.
Qed.

Lemma scenario_B_prefers_quickdeploy_witness :
  (Scenario.plan_deployment Scenario.plannerB).1
  = Return (Some [Scenario.create; Scenario.code; Scenario.quickdeploy])
  /\ plan_cost [Scenario.create; Scenario.code; Scenario.quickdeploy] = 5
  /\ plan_cost [Scenario.create; Scenario.code; Scenario.deploy] = 6.
Proof.
  apply (scenario_B_prefers_quickdeploy
           [Scenario.create; Scenario.code; Scenario.deploy; Scenario.quickdeploy]).
  reflexivity.
Defined.

(** Scenario A: the linear chain gives [create, code, deploy], of cost 6. *)
Example scenario_A_linear_chain :
  (Scenario.plan_deployment Scenario.plannerA).1
  = Return (Some [Scenario.create; Scenario.code; Scenario.deploy])
  /\ plan_cost [Scenario.create; Scenario.code; Scenario.deploy] = 6.
Proof. split; vm_compute; reflexivity. Qed.

(** Scenario C: no action of the chain produces [flag], and the search
    for [{flag: true}] from [{}] ends with [null]. *)
Example scenario_C_unreachable_goal :
  (GOAPPlanner.generatePlan Scenario.plannerA 0%nat 1%nat
     [[]; [("flag"%string, Scenario.yes)]]).1
  = Return None.
Proof. vm_compute. reflexivity. Qed.

(** ** [GOAPState.set] and [GOAPState.get] *)

Lemma map_get_set_eq (m : JSMap) key v : map_get (map_set m key v) key = v.
Proof.
  induction m as [|[k w] m IH]; cbn.
  - by rewrite bool_decide_true.
  - destruct (bool_decide (k = key)) eqn:Hk; cbn; rewrite Hk; [reflexivity | exact IH].
Qed.

Lemma map_get_set_ne (m : JSMap) key key' v :
  key' <> key -> map_get (map_set m key v) key' = map_get m key'.
Proof.
  intros Hne. induction m as [|[k w] m IH]; cbn.
  - by rewrite bool_decide_false.
  - destruct (bool_decide (k = key)) eqn:Hk; cbn.
    + apply bool_decide_eq_true in Hk. subst k. by rewrite bool_decide_false.
    + by rewrite IH.
Qed.

(** C2, as the code has it.  [set] writes the receiver in place and
    returns nothing: no state is allocated, the other states are
    untouched, and in the receiver the other keys read as before.  After
    it, [get(k)] is [v || false]: it is [v] itself when [v] is truthy or
    is [false]. *)
Theorem set_writes_receiver_in_place this key v h :
  (this < length h)%nat ->
  exists h',
    GOAPState.set this key v h = (Return tt, h')
    /\ length h' = length h
    /\ (forall r, r <> this -> h' !! r = h !! r)
    /\ GOAPState.get this key h' = (Return (or_else v (VBool false)), h')
    /\ (truthy v = true \/ v = VBool false ->
        GOAPState.get this key h' = (Return v, h'))
    /\ (forall key', key' <> key ->
        (GOAPState.get this key' h').1 = (GOAPState.get this key' h).1).
Proof.
  intros Hthis. rewrite set_run. eexists. split; [reflexivity|].
  assert (Hread : heap_read (<[this := map_set (heap_read h this) key v]> h) this
                  = map_set (heap_read h this) key v).
  { unfold heap_read at 1. by rewrite list_lookup_insert_eq. }
  split; [apply length_insert|]. split.
  { intros r Hr. by apply list_lookup_insert_ne. }
  split; [|split].
  - rewrite get_run, Hread. unfold lookup_value. by rewrite map_get_set_eq.
  - intros Hv. rewrite get_run, Hread. unfold lookup_value, or_else.
    rewrite map_get_set_eq. destruct Hv as [-> | ->]; reflexivity.
  - intros key' Hne. rewrite !get_run, Hread. cbn. unfold lookup_value.
    by rewrite map_get_set_ne.
Qed.

Lemma set_writes_receiver_in_place_witness :
  exists h',
    GOAPState.set 0%nat "deployed" (VBool true) Scenario.heap0 = (Return tt, h')
    /\ length h' = 2%nat
    /\ GOAPState.get 0%nat "deployed" h' = (Return (VBool true), h').
Proof.
  destruct (set_writes_receiver_in_place 0%nat "deployed" (VBool true) Scenario.heap0)
    as (h' & Hset & Hlen & _ & _ & Hget & _); [cbn; lia|].
  exists h'. split; [exact Hset|]. split; [exact Hlen|].
  apply Hget. left. reflexivity.
Defined.

(** C2, as the claim states it, fails: on the state [{}] alone in the
    heap, [set('deployed', true)] returns nothing, allocates no state,
    and the receiver's own map is no longer what it was. *)
Lemma set_returns_nothing_and_changes_receiver :
  exists h',
    GOAPState.set 0%nat "deployed" (VBool true) [[]] = (Return tt, h')
    /\ length h' = 1%nat
    /\ h' !! 0%nat <> ([[]] : heap) !! 0%nat.
Proof. eexists. split; [reflexivity|]. split; [reflexivity|]. discriminate. Qed.

(** A stored falsy value other than [false] is not read back:
    [set(k, 0)] is followed by [get(k) === false]. *)
Lemma get_after_set_of_zero :
  exists h',
    GOAPState.set 0%nat "retries" (VNum 0) [[]] = (Return tt, h')
    /\ GOAPState.get 0%nat "retries" h' = (Return (VBool false), h').
Proof. eexists. split; reflexivity. Qed.

(** ** [estimateExecutionTime] *)

Lemma baseTime_or_100_duration tag :
  tag ∉ GOAPPlanner.Object_prototype_names ->
  GOAPPlanner.baseTime_or_100 tag = Some (strategy_duration tag).
Proof.
  intros Hproto. unfold GOAPPlanner.baseTime_or_100, strategy_duration.
  cbn [obj_own GOAPPlanner.baseTime].
  destruct (decide (tag = "code"%string)) as [->|Hcode]; [reflexivity|].
  destruct (decide (tag = "llm"%string)) as [->|Hllm]; [reflexivity|].
  destruct (decide (tag = "hybrid"%string)) as [->|Hhybrid]; [reflexivity|].
  rewrite !bool_decide_false by congruence. reflexivity.
Qed.

Lemma estimateExecutionTime_fold plan t :
  Forall (fun a => executionType a ∉ GOAPPlanner.Object_prototype_names) plan ->
  fold_left
    (fun total action =>
       match total, GOAPPlanner.baseTime_or_100 (executionType action) with
       | Some t, Some d => Some (t + d)
       | _, _ => None
       end)
    plan (Some t)
  = Some (t + foldr Z.add 0 (map (fun a => strategy_duration (executionType a)) plan)).
Proof.
  intros Hplan. revert t. induction Hplan as [|a plan Ha Hplan IH]; intros t; cbn.
  - f_equal. lia.
  - rewrite (baseTime_or_100_duration _ Ha), IH. f_equal. lia.
Qed.

(** C8, as the code has it.  The estimated time of [analyzePlan] is the
    sum over the plan of a fixed duration per execution strategy, 100 for
    any tag the table does not list, and the table is ordered
    ['code'] (100) < ['llm'] (200) < ['hybrid'] (250).  (A tag naming a
    member of [Object.prototype] is excluded: the sum is then no
    number.) *)
Theorem estimatedTime_sums_strategy_durations plan :
  Forall (fun a => executionType a ∉ GOAPPlanner.Object_prototype_names) plan ->
  estimatedTime (GOAPPlanner.analyzePlan plan)
  = Some (foldr Z.add 0 (map (fun a => strategy_duration (executionType a)) plan))
  /\ GOAPPlanner.baseTime_or_100 "code" = Some 100
  /\ GOAPPlanner.baseTime_or_100 "llm" = Some 200
  /\ GOAPPlanner.baseTime_or_100 "hybrid" = Some 250
  /\ strategy_duration "code" < strategy_duration "llm" < strategy_duration "hybrid".
Proof.
  intros Hplan. split; [|repeat split; reflexivity].
  cbn [GOAPPlanner.analyzePlan estimatedTime]. unfold GOAPPlanner.estimateExecutionTime.
  by rewrite estimateExecutionTime_fold.
Qed.

Lemma estimatedTime_sums_strategy_durations_witness :
  estimatedTime
    (GOAPPlanner.analyzePlan
       [Scenario.create; mkAction "review" [] [] 2 "llm"; mkAction "ship" [] [] 2 "hybrid"])
  = Some 550.
Proof.
  refine (proj1 (estimatedTime_sums_strategy_durations
           [Scenario.create; mkAction "review" [] [] 2 "llm"; mkAction "ship" [] [] 2 "hybrid"]
           _)).
  apply (bool_decide_unpack _). vm_compute. exact I.
Defined.

Lemma baseTime_or_100_inherited tag :
  tag ∈ GOAPPlanner.Object_prototype_names -> GOAPPlanner.baseTime_or_100 tag = None.
Proof.
  intros Hin. unfold GOAPPlanner.Object_prototype_names in Hin.
  repeat (apply elem_of_cons in Hin as [-> | Hin]; [reflexivity|]).
  by apply elem_of_nil in Hin.
Qed.

(** A tag that names a member of [Object.prototype] takes the sum out
    of the numbers: the estimate is then no number at all. *)
Lemma estimateExecutionTime_no_number_for_inherited_name plan a :
  a ∈ plan ->
  executionType a ∈ GOAPPlanner.Object_prototype_names ->
  GOAPPlanner.estimateExecutionTime plan = None.
Proof.
  intros Hin Htag. unfold GOAPPlanner.estimateExecutionTime.
  generalize (Some 0). revert Hin.
  induction plan as [|b plan IH]; intros Hin total; [by apply elem_of_nil in Hin|].
  cbn [fold_left]. apply elem_of_cons in Hin as [<- | Hin].
  - rewrite (baseTime_or_100_inherited _ Htag).
    replace (match total with Some _ | _ => None end) with (@None Z)
      by (by destruct total).
    clear. induction plan as [|c plan IH]; [reflexivity | exact IH].
  - by apply IH.
Qed.

(** C8, as the claim states it, fails: in the table the combined
    strategy ['hybrid'] is not below the reasoning-based ['llm']. *)
Lemma hybrid_duration_not_below_llm :
  ~ (exists c b l,
       GOAPPlanner.baseTime_or_100 "code" = Some c
       /\ GOAPPlanner.baseTime_or_100 "hybrid" = Some b
       /\ GOAPPlanner.baseTime_or_100 "llm" = Some l
       /\ c < b < l).
Proof.
  intros (c & b & l & Hc & Hb & Hl & Hlt).
  vm_compute in Hb, Hl. injection Hb as <-. injection Hl as <-. lia.
Qed.

(** ** The OODA loop *)

Section Loop.

Variable this : OODALoop.

Lemma every_isApplicable_run (plan : list GOAPAction) ws h :
  every (fun a => GOAPAction.isApplicable a ws) plan h
  = (Return (forallb (fun a => holds (heap_read h ws) (preconditions a)) plan), h).
Proof.
  induction plan as [|a plan IH]; [reflexivity|].
  cbn [every forallb]. rewrite (bind_Return _ _ _ _ _ (isApplicable_run a ws h)).
  destruct (holds _ _); [exact IH | reflexivity].
Qed.

Lemma isPlanStillValid_returns h :
  exists valid, OODALoop.isPlanStillValid this h = (Return valid, h).
Proof.
  unfold OODALoop.isPlanStillValid.
  destruct (currentPlan this) as [plan|]; [|by eexists].
  destruct (_ <=? _)%nat; [by eexists|].
  rewrite every_isApplicable_run. by eexists.
Qed.

(** With no action left ([currentStep] at or past the end of the plan)
    the guard of [isPlanStillValid] answers [false]. *)
Lemma isPlanStillValid_no_action_left plan h :
  currentPlan this = Some plan ->
  (length plan <= currentStep this)%nat ->
  OODALoop.isPlanStillValid this h = (Return false, h).
Proof.
  intros Hplan Hdone. unfold OODALoop.isPlanStillValid. rewrite Hplan.
  by rewrite (proj2 (Nat.leb_le _ _) Hdone).
Qed.

Lemma isGoalStillReachable_returns h :
  exists reachable h',
    OODALoop.isGoalStillReachable this h = (Return reachable, h').
Proof.
  unfold OODALoop.isGoalStillReachable.
  destruct (generatePlan_returns (planner this) (worldState this) (goalState this) h)
    as (r & h' & Hgen & _).
  rewrite (bind_Return _ _ _ _ _ Hgen). by eexists _, _.
Qed.

(** [orient] returns, with the verdict of [isPlanStillValid] on the
    heap it started from and [needsReplanning] the disjunction of its
    four signals. *)
Lemma orient_returns observations unexpected h :
  exists analysis h',
    OODALoop.orient this observations unexpected h = (Return analysis, h')
    /\ OODALoop.isPlanStillValid this h = (Return (planValid analysis), h)
    /\ needsReplanning analysis
       = stateChanged analysis || negb (planValid analysis)
         || negb (goalReachable analysis)
         || (0 <? length (anomalies observations))%nat.
Proof.
  unfold OODALoop.orient.
  destruct (isPlanStillValid_returns h) as (valid & Hvalid).
  rewrite (bind_Return _ _ _ _ _ Hvalid).
  destruct (isGoalStillReachable_returns h) as (reachable & h' & Hreach).
  rewrite (bind_Return _ _ _ _ _ Hreach).
  eexists _, h'. split; [reflexivity|]. split; [exact Hvalid | reflexivity].
Qed.

(** Once no action of the plan is left, [orient] asks for replanning
    and [decide] answers [Replan], whatever the other signals are. *)
Lemma orient_replans_when_no_action_left plan observations unexpected h :
  currentPlan this = Some plan ->
  (length plan <= currentStep this)%nat ->
  exists analysis h',
    OODALoop.orient this observations unexpected h = (Return analysis, h')
    /\ planValid analysis = false
    /\ needsReplanning analysis = true
    /\ OODALoop.decide this analysis h'
       = (Return (mkDecision Replan "Conditions changed, replanning required"), h').
Proof.
  intros Hplan Hdone.
  destruct (orient_returns observations unexpected h)
    as (analysis & h' & Horient & Hvalid & Hneeds).
  rewrite (isPlanStillValid_no_action_left plan h Hplan Hdone) in Hvalid.
  injection Hvalid as Hvalid.
  assert (Hreplan : needsReplanning analysis = true).
  { rewrite Hneeds, <- Hvalid. cbn. by rewrite orb_true_r. }
  exists analysis, h'. split; [exact Horient|]. split; [done|]. split; [done|].
  unfold OODALoop.decide. by rewrite Hreplan.
Qed.

(** [decide] never answers [Complete] to an analysis made by [orient]
    in the same loop state. *)
Lemma orient_then_decide_never_completes observations unexpected h analysis h' d h'' :
  OODALoop.orient this observations unexpected h = (Return analysis, h') ->
  OODALoop.decide this analysis h' = (Return d, h'') ->
  decision_action d <> Complete.
Proof.
  intros Horient Hdecide.
  destruct (orient_returns observations unexpected h)
    as (analysis' & h1 & Horient' & Hvalid & Hneeds).
  rewrite Horient in Horient'. injection Horient' as <- <-.
  unfold OODALoop.decide in Hdecide.
  destruct (needsReplanning analysis) eqn:Hreplan.
  { injection Hdecide as <- _. discriminate. }
  destruct (currentPlan this) as [plan|] eqn:Hplan; [|discriminate].
  destruct (length plan <=? currentStep this)%nat eqn:Hdone.
  - apply Nat.leb_le in Hdone.
    rewrite (isPlanStillValid_no_action_left plan h Hplan Hdone) in Hvalid.
    injection Hvalid as Hvalid. rewrite <- Hvalid in Hneeds. cbn in Hneeds.
    rewrite orb_true_r in Hneeds. cbn in Hneeds. congruence.
  - injection Hdecide as <- _. discriminate.
Qed.

End Loop.

(** C6, on the code.  The first pass of the loop executes [create]
    successfully and leaves the plan fully executed.  In the next pass,
    with no unexpected state change and no anomaly, [orient] computes
    [planValid = false] and [needsReplanning = true], and [decide]
    answers [Replan], not [Complete]; the loop goes on monitoring. *)
Theorem fully_executed_plan_is_replanned :
  OODALoop.cycle LoopScenario.loop0 false "t1" LoopScenario.heap0
  = (Return LoopScenario.loop1, LoopScenario.heap1)
  /\ exists observations h1 analysis h2,
       OODALoop.observe LoopScenario.loop1 LoopScenario.heap1 = (Return observations, h1)
       /\ anomalies observations = []
       /\ OODALoop.orient LoopScenario.loop1 observations false h1 = (Return analysis, h2)
       /\ stateChanged analysis = false
       /\ planValid analysis = false
       /\ needsReplanning analysis = true
       /\ OODALoop.decide LoopScenario.loop1 analysis h2
          = (Return (mkDecision Replan "Conditions changed, replanning required"), h2)
       /\ exists loop2 h3,
            OODALoop.cycle LoopScenario.loop1 false "t2" LoopScenario.heap1
            = (Return loop2, h3)
            /\ monitoring loop2 = true.
Proof.
  split; [vm_compute; reflexivity|].
  eexists _, _, _, _. split; [vm_compute; reflexivity|].
  split; [reflexivity|]. split; [vm_compute; reflexivity|].
  split; [reflexivity|]. split; [reflexivity|]. split; [reflexivity|].
  split; [reflexivity|].
  eexists _, _. split; [vm_compute; reflexivity | reflexivity].
Qed.

(** C7. When [execute] throws on the action of the current step,
    [executeNextAction] returns normally and touches no state: it
    appends one history entry with the action's name and the error
    message, and leaves the world state, the step index, the plan and
    the monitoring flag as they were.  In the next pass [observe] reports
    the failure as an anomaly, [orient] sets [needsReplanning], and
    [decide] answers [Replan]. *)
Theorem execution_failure_is_recorded_then_replanned
    this plan failing message now h h0 :
  currentPlan this = Some plan ->
  plan !! currentStep this = Some failing ->
  GOAPAction.execute failing h = (Throw message, h0) ->
  exists this',
    OODALoop.executeNextAction this now h = (Return this', h)
    /\ executionHistory this'
       = executionHistory this
         ++ [mkEntry (StepIndex (currentStep this)) (name failing) None
               (Some message) None now]
    /\ worldState this' = worldState this
    /\ currentStep this' = currentStep this
    /\ currentPlan this' = currentPlan this
    /\ monitoring this' = monitoring this
    /\ forall unexpected,
       exists observations h1 analysis h2,
         OODALoop.observe this' h = (Return observations, h1)
         /\ anomalies observations = ["Action failure: " +:+ name failing]
         /\ OODALoop.orient this' observations unexpected h1 = (Return analysis, h2)
         /\ needsReplanning analysis = true
         /\ OODALoop.decide this' analysis h2
            = (Return (mkDecision Replan "Conditions changed, replanning required"), h2).
Proof.
  intros Hplan Hstep Hexec.
  assert (Hmsg : h0 = h /\ truthy (VStr message) = true).
  { unfold GOAPAction.execute in Hexec.
    repeat (destruct (bool_decide _) in Hexec; [discriminate|]).
    injection Hexec as <- <-. split; reflexivity. }
  destruct Hmsg as [-> Hmsg].
  eexists. split.
  { unfold OODALoop.executeNextAction. rewrite Hplan, Hstep.
    unfold try_catch, bind. rewrite Hexec. reflexivity. }
  cbn [executionHistory worldState currentStep currentPlan monitoring].
  repeat (split; [first [reflexivity | by rewrite Hplan]|]).
  intros unexpected.
  match goal with |- context [OODALoop.observe ?l] => set (this' := l) end.
  assert (Hanomalies : OODALoop.detectAnomalies this'
                       = ["Action failure: " +:+ name failing]).
  { unfold OODALoop.detectAnomalies, this'. cbn [executionHistory].
    rewrite last_snoc. cbn [error action]. by rewrite Hmsg. }
  eexists _, _. 
  destruct (orient_returns this'
              (mkObservations (length h) (currentStep this') (length plan)
                 (list.last (executionHistory this')) (OODALoop.detectAnomalies this'))
              unexpected (h ++ [cloned (heap_read h (worldState this'))]))
    as (analysis & h2 & Horient & _ & Hneeds).
  exists analysis, h2. split.
  { unfold OODALoop.observe. rewrite (bind_Return _ _ _ _ _ (clone_run _ h)).
    reflexivity. }
  split; [exact Hanomalies|]. split; [exact Horient|].
  assert (Hreplan : needsReplanning analysis = true).
  { rewrite Hneeds. cbn [anomalies]. rewrite Hanomalies. cbn. apply orb_true_r. }
  split; [exact Hreplan|].
  unfold OODALoop.decide. by rewrite Hreplan.
Qed.

Lemma execution_failure_is_recorded_then_replanned_witness :
  exists this',
    OODALoop.executeNextAction LoopScenario.loop_teleport "t1" LoopScenario.heap0
    = (Return this', LoopScenario.heap0)
    /\ executionHistory this'
       = [mkEntry (StepIndex 0) "teleport" None
            (Some "Unknown execution type: quantum"%string) None "t1"]
    /\ currentStep this' = 0%nat
    /\ monitoring this' = true.
Proof.
  destruct (execution_failure_is_recorded_then_replanned
              LoopScenario.loop_teleport [LoopScenario.teleport] LoopScenario.teleport
              "Unknown execution type: quantum" "t1" LoopScenario.heap0 LoopScenario.heap0)
    as (this' & Hrun & Hhistory & _ & Hstep & _ & Hmonitoring & _);
    [reflexivity | reflexivity | reflexivity |].
  exists this'. split; [exact Hrun|]. split; [exact Hhistory|].
  split; [exact Hstep | exact Hmonitoring].
Defined.

(** ** Array indices are canonical numerals *)

Section ArrayIndex.

Local Open Scope N_scope.

Lemma digits_value_acc s acc :
  digits_value s acc = acc * 10 ^ N.of_nat (String.length s) + digits_value s 0.
Proof.
  revert acc. induction s as [|c s IH]; intros acc.
  - cbn. lia.
  - cbn [digits_value String.length]. rewrite (IH (10 * acc + _)), (IH (10 * 0 + _)).
    rewrite Nat2N.inj_succ, N.pow_succ_r'. lia.
Qed.

Lemma digits_value_cons c s :
  digits_value (String c s) 0
  = N.of_nat (nat_of_ascii c - 48) * 10 ^ N.of_nat (String.length s)
    + digits_value s 0.
Proof. cbn [digits_value]. rewrite digits_value_acc. f_equal. Qed.

Lemma is_digit_range c :
  is_digit c = true -> (48 <= nat_of_ascii c <= 57)%nat.
Proof.
  unfold is_digit. intros H. apply andb_prop in H as [H1 H2].
  apply Nat.leb_le in H1, H2. lia.
Qed.

Lemma digits_value_bound s :
  all_digits s = true -> digits_value s 0 < 10 ^ N.of_nat (String.length s).
Proof.
  induction s as [|c s IH]; intros Hs.
  - cbn. lia.
  - cbn [all_digits] in Hs. apply andb_prop in Hs as [Hc Hs].
    apply is_digit_range in Hc. specialize (IH Hs).
    rewrite digits_value_cons. cbn [String.length].
    rewrite Nat2N.inj_succ, N.pow_succ_r'. nia.
Qed.

Lemma digits_value_inj s1 s2 :
  all_digits s1 = true -> all_digits s2 = true ->
  String.length s1 = String.length s2 ->
  digits_value s1 0 = digits_value s2 0 -> s1 = s2.
Proof.
  revert s2. induction s1 as [|c1 s1 IH]; intros [|c2 s2] H1 H2 Hlen Hval;
    try discriminate; [reflexivity|].
  cbn [all_digits] in H1, H2.
  apply andb_prop in H1 as [Hc1 H1]. apply andb_prop in H2 as [Hc2 H2].
  injection Hlen as Hlen.
  rewrite !digits_value_cons, Hlen in Hval.
  pose proof (digits_value_bound s1 H1) as B1. rewrite Hlen in B1.
  pose proof (digits_value_bound s2 H2) as B2.
  apply is_digit_range in Hc1, Hc2.
  assert (Hd : N.of_nat (nat_of_ascii c1 - 48) = N.of_nat (nat_of_ascii c2 - 48)) by nia.
  assert (Hc : c1 = c2).
  { rewrite <- (ascii_nat_embedding c1), <- (ascii_nat_embedding c2). f_equal. lia. }
  subst c2. f_equal. apply IH; [done..|]. nia.
Qed.

Lemma array_index_canonical key i :
  array_index key = Some i ->
  all_digits key = true
  /\ i = digits_value key 0
  /\ exists c rest,
       key = String c rest
       /\ (nat_of_ascii c = 48%nat -> rest = EmptyString).
Proof.
  unfold array_index. destruct key as [|c rest]; [discriminate|].
  destruct (all_digits (String c rest)) eqn:Hd; cbn [negb]; [|discriminate].
  destruct (_ && negb _) eqn:Hz; [discriminate|].
  destruct ((String.length _ <=? 10)%nat && _); [|discriminate].
  intros [= <-]. split; [reflexivity|]. split; [reflexivity|].
  exists c, rest. split; [reflexivity|]. intros Hc.
  apply andb_false_iff in Hz as [Hz | Hz].
  - apply Nat.eqb_neq in Hz. done.
  - apply negb_false_iff, bool_decide_eq_true in Hz. done.
Qed.

Lemma canonical_lower c rest :
  all_digits (String c rest) = true ->
  (nat_of_ascii c = 48%nat -> rest = EmptyString) ->
  rest <> EmptyString ->
  10 ^ N.of_nat (String.length rest) <= digits_value (String c rest) 0.
Proof.
  intros Hd Hz Hrest. cbn [all_digits] in Hd. apply andb_prop in Hd as [Hc _].
  apply is_digit_range in Hc. rewrite digits_value_cons.
  assert (nat_of_ascii c <> 48%nat) by (intros E; by apply Hrest, Hz).
  nia.
Qed.

Lemma canonical_length_le k1 k2 i1 i2 :
  array_index k1 = Some i1 -> array_index k2 = Some i2 ->
  (String.length k1 < String.length k2)%nat -> i1 < i2.
Proof.
  intros H1 H2 Hlen.
  apply array_index_canonical in H1 as (Hd1 & -> & c1 & rest1 & -> & _).
  apply array_index_canonical in H2 as (Hd2 & -> & c & rest & -> & Hz).
  pose proof (digits_value_bound _ Hd1) as B1.
  cbn [String.length] in Hlen, B1.
  assert (Hrest : rest <> EmptyString).
  { intros ->. cbn in Hlen. lia. }
  pose proof (canonical_lower c rest Hd2 Hz Hrest) as B2.
  assert (10 ^ N.of_nat (S (String.length rest1)) <= 10 ^ N.of_nat (String.length rest)).
  { apply N.pow_le_mono_r; lia. }
  lia.
Qed.

Lemma array_index_inj k1 k2 i :
  array_index k1 = Some i -> array_index k2 = Some i -> k1 = k2.
Proof.
  intros H1 H2.
  destruct (lt_eq_lt_dec (String.length k1) (String.length k2)) as [[Hlt | Heq] | Hgt].
  - pose proof (canonical_length_le _ _ _ _ H1 H2 Hlt). lia.
  - apply array_index_canonical in H1 as (Hd1 & E1 & _).
    apply array_index_canonical in H2 as (Hd2 & E2 & _).
    apply digits_value_inj; congruence.
  - pose proof (canonical_length_le _ _ _ _ H2 H1 Hgt). lia.
Qed.

End ArrayIndex.

(** ** The property order of [Object.fromEntries] *)

Lemma index_lt_trans a b c : index_lt a b -> index_lt b c -> index_lt a c.
Proof.
  unfold index_lt.
  destruct (array_index a.1), (array_index b.1), (array_index c.1); try done. lia.
Qed.

Lemma obj_define_fresh_named (o : Obj) key v :
  array_index key = None -> key ∉ o.*1 -> obj_define o key v = o ++ [(key, v)].
Proof.
  intros Hnamed. induction o as [|[k w] o IH]; intros Hfresh; [reflexivity|].
  cbn in Hfresh. apply not_elem_of_cons in Hfresh as [Hne Hfresh].
  cbn [obj_define app]. rewrite bool_decide_false by congruence.
  unfold key_before. rewrite Hnamed. cbn. by rewrite IH.
Qed.

Lemma obj_define_fresh_index (I R : Obj) key i v :
  array_index key = Some i ->
  key ∉ (I ++ R).*1 ->
  Forall (fun kv => ~ named kv) I ->
  StronglySorted index_lt I ->
  Forall named R ->
  exists I',
    obj_define (I ++ R) key v = I' ++ R
    /\ I' ≡ₚ (key, v) :: I
    /\ Forall (fun kv => ~ named kv) I'
    /\ StronglySorted index_lt I'.
Proof.
  intros Hkey. induction I as [|[k w] I IH]; intros Hfresh HI Hsorted HR.
  - exists [(key, v)]. split; [|split; [done|split]].
    + destruct R as [|[k w] R]; [reflexivity|].
      cbn in Hfresh. apply not_elem_of_cons in Hfresh as [Hne Hfresh].
      inversion HR as [|? ? Hk _]; subst. unfold named in Hk. cbn in Hk.
      cbn [app obj_define]. rewrite bool_decide_false by congruence.
      unfold key_before. rewrite Hkey, Hk. cbn.
      by rewrite bool_decide_false.
    + constructor; [|constructor]. unfold named. cbn. by rewrite Hkey.
    + repeat constructor.
  - cbn in Hfresh. apply not_elem_of_cons in Hfresh as [Hne Hfresh].
    inversion HI as [|? ? Hk HI']; subst.
    inversion Hsorted as [|? ? Hsorted' Hall]; subst.
    unfold named in Hk. cbn in Hk.
    destruct (array_index k) as [j|] eqn:Hj; [|done].
    cbn [app obj_define]. rewrite bool_decide_false by congruence.
    unfold key_before. rewrite Hkey, Hj.
    destruct (i <? j)%N eqn:Hij.
    + apply N.ltb_lt in Hij. cbn. rewrite bool_decide_false by done. cbn.
      exists ((key, v) :: (k, w) :: I). split; [reflexivity|]. split; [done|]. split.
      * constructor; [|done]. unfold named. cbn. by rewrite Hkey.
      * constructor; [done|]. constructor.
        -- unfold index_lt. cbn. by rewrite Hkey, Hj.
        -- eapply List.Forall_impl; [|exact Hall]. intros x Hx.
           eapply index_lt_trans; [|exact Hx]. unfold index_lt. cbn. by rewrite Hkey, Hj.
    + apply N.ltb_ge in Hij. cbn.
      destruct (IH Hfresh HI' Hsorted' HR) as (I' & Hdef & Hperm & HI'' & Hsorted'').
      exists ((k, w) :: I'). split; [by rewrite Hdef|]. split; [|split].
      * rewrite Hperm. apply perm_swap.
      * constructor; [unfold named; cbn; congruence | done].
      * constructor; [done|]. rewrite Hperm. constructor; [|done].
        unfold index_lt. cbn. rewrite Hj, Hkey.
        assert (i <> j) by (intros ->; apply Hne; by eapply array_index_inj).
        lia.
Qed.

Lemma Object_fromEntries_order (m : entries) :
  NoDup m.*1 ->
  exists I,
    Object_fromEntries m = I ++ filter named m
    /\ I ≡ₚ filter (fun kv => ~ named kv) m
    /\ Forall (fun kv => ~ named kv) I
    /\ StronglySorted index_lt I.
Proof.
  induction m as [|[key v] m IH] using rev_ind; intros Hnodup.
  - exists []. repeat split; constructor.
  - rewrite fmap_app in Hnodup. apply NoDup_app in Hnodup as (Hnodup & Hfresh & _).
    destruct (IH Hnodup) as (I & Hobj & Hperm & HI & Hsorted).
    assert (Hkey : key ∉ (I ++ filter named m).*1).
    { intros Hin. apply (Hfresh key); [|cbn; left].
      assert (Hm : I ++ filter named m ≡ₚ m).
      { rewrite Hperm, (comm app). apply filter_app_complement. }
      by rewrite <- Hm. }
    unfold Object_fromEntries. rewrite fold_left_app. cbn [fold_left fst snd].
    fold (Object_fromEntries m). rewrite Hobj, !filter_app.
    destruct (array_index key) as [i|] eqn:Hi.
    + destruct (obj_define_fresh_index I (filter named m) key i v Hi Hkey HI Hsorted)
        as (I' & Hdef & Hperm' & HI' & Hsorted').
      { apply list.Forall_forall. intros x Hx. by apply list_elem_of_filter in Hx as [? _]. }
      exists I'. rewrite Hdef.
      rewrite (filter_cons_False named) by (unfold named; cbn; congruence).
      rewrite (filter_cons_True (fun kv => ~ named kv)) by (unfold named; cbn; congruence).
      rewrite !filter_nil, app_nil_r. split; [reflexivity|]. split; [|done].
      rewrite Hperm', Hperm. apply Permutation_cons_append.
    + exists I. rewrite obj_define_fresh_named by done.
      rewrite (filter_cons_True named) by done.
      rewrite (filter_cons_False (fun kv => ~ named kv)) by (unfold named; cbn; tauto).
      rewrite !filter_nil, app_nil_r, app_assoc. done.
Qed.

Lemma Object_fromEntries_congruence (m1 m2 : entries) :
  NoDup m1.*1 ->
  m1 ≡ₚ m2 ->
  filter named m1 = filter named m2 ->
  Object_fromEntries m1 = Object_fromEntries m2.
Proof.
  intros Hnodup Hperm Hnamed.
  assert (Hnodup2 : NoDup m2.*1) by (by rewrite <- Hperm).
  destruct (Object_fromEntries_order m1 Hnodup) as (I1 & -> & Hp1 & _ & Hs1).
  destruct (Object_fromEntries_order m2 Hnodup2) as (I2 & -> & Hp2 & _ & Hs2).
  rewrite Hnamed. f_equal.
  apply (StronglySorted_unique_strong index_lt); [|done..|].
  - intros a b _ _. unfold index_lt.
    destruct (array_index a.1), (array_index b.1); try done. lia.
  - by rewrite Hp1, Hp2, Hperm.
Qed.

(** ** [GOAPState.toString], the key of the closed set *)

(** X26. Two states holding the same entries get the same string from
    [toString] when their keys that are not array indices were inserted
    in the same order; keys that are array indices
    are serialized first, in ascending numeric order, whatever their
    insertion order. *)
Theorem toString_same_for_same_named_key_order h s1 s2 :
  NoDup (heap_read h s1).*1 ->
  heap_read h s1 ≡ₚ heap_read h s2 ->
  filter named (heap_read h s1) = filter named (heap_read h s2) ->
  GOAPState.toString s1 h = GOAPState.toString s2 h.
Proof.
  intros Hnodup Hperm Hnamed. rewrite !toString_run.
  by rewrite (Object_fromEntries_congruence _ _ Hnodup Hperm Hnamed).
Qed.

Lemma toString_same_for_same_named_key_order_witness :
  GOAPState.toString 0%nat
    [[("exists"%string, Scenario.yes); ("7"%string, VNum 1); ("10"%string, VNull)];
     [("10"%string, VNull); ("exists"%string, Scenario.yes); ("7"%string, VNum 1)]]
  = GOAPState.toString 1%nat
      [[("exists"%string, Scenario.yes); ("7"%string, VNum 1); ("10"%string, VNull)];
       [("10"%string, VNull); ("exists"%string, Scenario.yes); ("7"%string, VNum 1)]].
Proof.
  apply toString_same_for_same_named_key_order.
  - apply (bool_decide_unpack _). vm_compute. exact I.
  - cbn. symmetry.
    exact (Permutation_cons_append
             [("exists"%string, Scenario.yes); ("7"%string, VNum 1)]
             ("10"%string, VNull)).
  - vm_compute. reflexivity.
Defined.

(** The states the constructor builds from [{exists: true, coded: true}]
    and from [{coded: true, exists: true}] hold the same entries and
    answer every [get] alike, and their [toString] differ. *)
Lemma toString_differs_with_insertion_order :
  exists s1 s2 h,
    (let* a := GOAPState.new [("exists"%string, Scenario.yes); ("coded"%string, Scenario.yes)] in
     let* b := GOAPState.new [("coded"%string, Scenario.yes); ("exists"%string, Scenario.yes)] in
     ret (a, b)) [] = (Return (s1, s2), h)
    /\ heap_read h s1 ≡ₚ heap_read h s2
    /\ (forall key, GOAPState.get s1 key h = GOAPState.get s2 key h)
    /\ (GOAPState.toString s1 h).1 <> (GOAPState.toString s2 h).1.
Proof.
  eexists _, _, _. split; [vm_compute; reflexivity|]. split; [|split].
  - cbn. apply perm_swap.
  - intros key. rewrite !get_run. cbn. unfold lookup_value. cbn.
    destruct (decide (key = "exists"%string)) as [->|He]; [reflexivity|].
    destruct (decide (key = "coded"%string)) as [->|Hc]; [reflexivity|].
    by rewrite !bool_decide_false by congruence.
  - vm_compute. discriminate.
Qed.

(** C3, on the code.  From the empty state, the effects
    [{exists: true}] and [{coded: true}] applied in either order give two
    states that hold the same entries and answer every [get] alike, as two
    commuting actions produce them in the search; [toString], the key
    of the closed set, gives them different strings, because it
    serializes the entries in insertion order without sorting them. *)
Theorem toString_differs_for_commuting_effects :
  exists s1 s2 h,
    (let* start := GOAPState.new [] in
     let* a := GOAPState.applyEffects start [("exists"%string, Scenario.yes)] in
     let* ab := GOAPState.applyEffects a [("coded"%string, Scenario.yes)] in
     let* b := GOAPState.applyEffects start [("coded"%string, Scenario.yes)] in
     let* ba := GOAPState.applyEffects b [("exists"%string, Scenario.yes)] in
     ret (ab, ba)) [] = (Return (s1, s2), h)
    /\ heap_read h s1 ≡ₚ heap_read h s2
    /\ (forall key, GOAPState.get s1 key h = GOAPState.get s2 key h)
    /\ (GOAPState.toString s1 h).1 <> (GOAPState.toString s2 h).1.
Proof.
  eexists _, _, _. split; [vm_compute; reflexivity|]. split; [|split].
  - cbn. apply perm_swap.
  - intros key. rewrite !get_run. cbn. unfold lookup_value. cbn.
    destruct (decide (key = "exists"%string)) as [->|He]; [reflexivity|].
    destruct (decide (key = "coded"%string)) as [->|Hc]; [reflexivity|].
    by rewrite !bool_decide_false by congruence.
  - vm_compute. discriminate.
Qed.

(** ** Maps with unique keys *)

Section Maps.

Implicit Types (m : JSMap) (key : string) (v : value).

Lemma map_set_keys m key v :
  (map_set m key v).*1 = if bool_decide (key ∈ m.*1) then m.*1 else m.*1 ++ [key].
Proof.
  induction m as [|[k w] m IH]; cbn; [reflexivity|].
  destruct (bool_decide (k = key)) eqn:Hk; cbn.
  - apply bool_decide_eq_true in Hk. subst k.
    rewrite bool_decide_true by left. reflexivity.
  - apply bool_decide_eq_false in Hk. rewrite IH.
    destruct (bool_decide (key ∈ m.*1)) eqn:Hin.
    + apply bool_decide_eq_true in Hin. rewrite bool_decide_true by (by right). reflexivity.
    + apply bool_decide_eq_false in Hin.
      rewrite bool_decide_false; [reflexivity|].
      intros Hc. apply elem_of_cons in Hc as [Hc | Hc]; [congruence | done].
Qed.

Lemma map_set_NoDup m key v : NoDup m.*1 -> NoDup (map_set m key v).*1.
Proof.
  intros Hm. rewrite map_set_keys. case_bool_decide as Hin; [done|].
  apply NoDup_app. split; [done|]. split; [|apply NoDup_singleton].
  intros x Hx Hx'. apply list_elem_of_singleton in Hx'. by subst.
Qed.

Lemma map_set_fresh m key v : key ∉ m.*1 -> map_set m key v = m ++ [(key, v)].
Proof.
  induction m as [|[k w] m IH]; intros Hfresh; [reflexivity|].
  cbn in Hfresh. apply not_elem_of_cons in Hfresh as [Hne Hfresh].
  cbn. rewrite bool_decide_false by congruence. by rewrite IH.
Qed.

Lemma fold_map_set_NoDup (es : entries) m :
  NoDup m.*1 -> NoDup (fold_left (fun m' kv => map_set m' kv.1 kv.2) es m).*1.
Proof.
  revert m. induction es as [|kv es IH]; intros m Hm; [done|].
  cbn. apply IH. by apply map_set_NoDup.
Qed.

Lemma map_of_entries_NoDup (es : entries) : NoDup (map_of_entries es).*1.
Proof. apply fold_map_set_NoDup. constructor. Qed.

Lemma fold_map_set_fresh (es : entries) m :
  NoDup (m ++ es).*1 ->
  fold_left (fun m' kv => map_set m' kv.1 kv.2) es m = m ++ es.
Proof.
  revert m. induction es as [|[k v] es IH]; intros m Hnd; cbn.
  - by rewrite app_nil_r.
  - rewrite map_set_fresh.
    + rewrite IH; [by rewrite <- app_assoc|]. by rewrite <- app_assoc.
    + rewrite fmap_app in Hnd. apply NoDup_app in Hnd as (_ & Hdisj & _).
      intros Hin. apply (Hdisj k Hin). cbn. left.
Qed.

Lemma map_of_entries_id (es : entries) : NoDup es.*1 -> map_of_entries es = es.
Proof. intros Hnd. unfold map_of_entries. by rewrite fold_map_set_fresh. Qed.

Lemma map_get_absent m key : key ∉ m.*1 -> map_get m key = VUndefined.
Proof.
  induction m as [|[k w] m IH]; intros Hfresh; [reflexivity|].
  cbn in Hfresh. apply not_elem_of_cons in Hfresh as [Hne Hfresh].
  cbn. rewrite bool_decide_false by congruence. by apply IH.
Qed.

Lemma map_get_elem m key v : NoDup m.*1 -> (key, v) ∈ m -> map_get m key = v.
Proof.
  induction m as [|[k w] m IH]; intros Hnd Hin; [by apply elem_of_nil in Hin|].
  cbn in Hnd. apply NoDup_cons in Hnd as [Hk Hnd].
  apply elem_of_cons in Hin as [Heq | Hin]; cbn.
  - injection Heq as <- <-. by rewrite bool_decide_true.
  - rewrite bool_decide_false; [by apply IH|].
    intros ->. apply Hk. apply list_elem_of_fmap. by exists (key, v).
Qed.

Lemma map_get_Permutation m1 m2 key :
  NoDup m1.*1 -> m1 ≡ₚ m2 -> map_get m1 key = map_get m2 key.
Proof.
  intros Hnd Hperm.
  assert (Hnd2 : NoDup m2.*1) by (by rewrite <- Hperm).
  destruct (decide (key ∈ m1.*1)) as [Hin | Hout].
  - apply list_elem_of_fmap in Hin as ([k v] & -> & Hin). cbn.
    rewrite (map_get_elem m1 k v Hnd Hin).
    rewrite Hperm in Hin. by rewrite (map_get_elem m2 k v Hnd2 Hin).
  - rewrite (map_get_absent m1) by done.
    rewrite Hperm in Hout. by rewrite (map_get_absent m2).
Qed.

Lemma fold_map_set_get_other (es : entries) m key :
  key ∉ es.*1 ->
  map_get (fold_left (fun m' kv => map_set m' kv.1 kv.2) es m) key = map_get m key.
Proof.
  revert m. induction es as [|[k v] es IH]; intros m Hout; [reflexivity|].
  cbn in Hout. apply not_elem_of_cons in Hout as [Hne Hout].
  cbn. rewrite IH by done. by apply map_get_set_ne.
Qed.

Lemma fold_map_set_get_elem (es : entries) m key v :
  NoDup es.*1 -> (key, v) ∈ es ->
  map_get (fold_left (fun m' kv => map_set m' kv.1 kv.2) es m) key = v.
Proof.
  revert m. induction es as [|[k w] es IH]; intros m Hnd Hin;
    [by apply elem_of_nil in Hin|].
  cbn in Hnd. apply NoDup_cons in Hnd as [Hk Hnd].
  apply elem_of_cons in Hin as [Heq | Hin]; cbn.
  - injection Heq as <- <-. rewrite fold_map_set_get_other by done.
    apply map_get_set_eq.
  - by apply IH.
Qed.

End Maps.

(** ** Clones *)

Lemma filter_named_index_part (I : Obj) :
  Forall (fun kv => ~ named kv) I -> filter named I = [].
Proof.
  induction 1 as [|kv I Hkv _ IH]; [reflexivity|].
  by rewrite filter_cons_False.
Qed.

Lemma filter_named_idemp (m : entries) : filter named (filter named m) = filter named m.
Proof.
  induction m as [|kv m IH]; [reflexivity|].
  destruct (decide (named kv)) as [Hn | Hn].
  - rewrite (filter_cons_True named kv m Hn), (filter_cons_True named) by done.
    by rewrite IH.
  - by rewrite (filter_cons_False named kv m Hn).
Qed.

Lemma Object_fromEntries_Permutation (m : entries) :
  NoDup m.*1 -> Object_fromEntries m ≡ₚ m.
Proof.
  intros Hnd. destruct (Object_fromEntries_order m Hnd) as (I & -> & Hperm & _).
  rewrite Hperm, (comm app). apply filter_app_complement.
Qed.

Lemma Object_fromEntries_idemp (m : entries) :
  NoDup m.*1 -> Object_fromEntries (Object_fromEntries m) = Object_fromEntries m.
Proof.
  intros Hnd.
  pose proof (Object_fromEntries_Permutation m Hnd) as Hperm.
  apply Object_fromEntries_congruence; [by rewrite Hperm | done |].
  destruct (Object_fromEntries_order m Hnd) as (I & -> & _ & HI & _).
  rewrite filter_app, (filter_named_index_part I HI). cbn.
  apply filter_named_idemp.
Qed.

Lemma cloned_Object_fromEntries (m : JSMap) :
  NoDup m.*1 -> cloned m = Object_fromEntries m.
Proof.
  intros Hnd. unfold cloned, Object_entries. apply map_of_entries_id.
  by rewrite (Object_fromEntries_Permutation m Hnd).
Qed.

Lemma cloned_Permutation (m : JSMap) : NoDup m.*1 -> cloned m ≡ₚ m.
Proof.
  intros Hnd. rewrite cloned_Object_fromEntries by done.
  by apply Object_fromEntries_Permutation.
Qed.

Lemma cloned_NoDup (m : JSMap) : NoDup (cloned m).*1.
Proof. apply map_of_entries_NoDup. Qed.

Lemma cloned_idemp (m : JSMap) : NoDup m.*1 -> cloned (cloned m) = cloned m.
Proof.
  intros Hnd. rewrite (cloned_Object_fromEntries (cloned m)) by apply cloned_NoDup.
  rewrite (cloned_Object_fromEntries m) by done.
  by apply Object_fromEntries_idemp.
Qed.

Lemma lookup_value_cloned (m : JSMap) key :
  NoDup m.*1 -> lookup_value (cloned m) key = lookup_value m key.
Proof.
  intros Hnd. unfold lookup_value. f_equal.
  apply map_get_Permutation; [apply cloned_NoDup | by apply cloned_Permutation].
Qed.

Lemma overwritten_NoDup (m : JSMap) (e : Obj) : NoDup (overwritten m e).*1.
Proof. apply fold_map_set_NoDup, cloned_NoDup. Qed.

(** ** Reading and writing states *)

(** X1. [get] never throws and never answers a falsy value other than
    [false]: an absent key, like a key holding [undefined], [null], [0]
    or the empty string, reads as [false]. *)
Theorem get_answers_false_or_truthy this key h :
  exists v,
    GOAPState.get this key h = (Return v, h)
    /\ (v = VBool false \/ truthy v = true)
    /\ (key ∉ (heap_read h this).*1 -> v = VBool false).
Proof.
  rewrite get_run. eexists. split; [reflexivity|]. unfold lookup_value, or_else. split.
  - destruct (truthy (map_get _ _)) eqn:Ht; [by right | by left].
  - intros Habsent. by rewrite map_get_absent.
Qed.

(** X2. [clone] returns a new state that answers every [get] as the
    original does, and a later [set] on the clone does not change what
    the original answers. *)
Theorem clone_is_independent_copy this h :
  (this < length h)%nat ->
  NoDup (heap_read h this).*1 ->
  exists c h',
    GOAPState.clone this h = (Return c, h')
    /\ c <> this
    /\ h `prefix_of` h'
    /\ (forall key, (GOAPState.get c key h').1 = (GOAPState.get this key h).1)
    /\ (forall k v key,
          (GOAPState.get this key (GOAPState.set c k v h').2).1
          = (GOAPState.get this key h).1).
Proof.
  intros Hthis Hnd. rewrite clone_run. eexists _, _. split; [reflexivity|].
  split; [lia|]. split; [by apply prefix_app_r|]. split.
  - intros key. rewrite !get_run, heap_read_fresh. cbn. f_equal.
    by apply lookup_value_cloned.
  - intros k v key. rewrite set_run. cbn [snd]. rewrite !get_run. cbn [fst].
    f_equal. f_equal. unfold heap_read at 1.
    rewrite list_lookup_insert_ne by lia. rewrite lookup_app_l by done. reflexivity.
Qed.

Lemma clone_is_independent_copy_witness :
  exists c h',
    GOAPState.clone 1%nat Scenario.heap0 = (Return c, h')
    /\ c <> 1%nat
    /\ (GOAPState.get c "deployed" h').1 = Return (VBool true)
    /\ (GOAPState.get 1%nat "deployed" (GOAPState.set c "deployed" (VBool false) h').2).1
       = Return (VBool true).
Proof.
  destruct (clone_is_independent_copy 1%nat Scenario.heap0)
    as (c & h' & Hclone & Hne & _ & Hget & Hset).
  - cbn. lia.
  - apply (bool_decide_unpack _). vm_compute. exact I.
  - exists c, h'. split; [exact Hclone|]. split; [exact Hne|]. split.
    + rewrite Hget. reflexivity.
    + rewrite Hset. reflexivity.
Defined.

(** X3. [applyEffects] builds a new state and leaves the heap it found
    as it was.  In the new state a key of [effects] reads as its effect
    value (or [false] when that value is falsy), and every other key
    reads as in the receiver. *)
Theorem applyEffects_overwrites_only_effect_keys this (effects : Obj) h :
  NoDup (heap_read h this).*1 ->
  NoDup effects.*1 ->
  exists s h',
    GOAPState.applyEffects this effects h = (Return s, h')
    /\ s = length h
    /\ h `prefix_of` h'
    /\ (forall k v, (k, v) ∈ effects ->
          GOAPState.get s k h' = (Return (or_else v (VBool false)), h'))
    /\ (forall k, k ∉ effects.*1 ->
          (GOAPState.get s k h').1 = (GOAPState.get this k h).1).
Proof.
  intros Hnd Heff. rewrite applyEffects_run. eexists _, _. split; [reflexivity|].
  split; [reflexivity|]. split; [by apply prefix_app_r|]. split.
  - intros k v Hin. rewrite get_run, heap_read_fresh. unfold lookup_value, overwritten.
    by rewrite (fold_map_set_get_elem effects _ k v Heff Hin).
  - intros k Hout. rewrite !get_run, heap_read_fresh. cbn. f_equal.
    unfold lookup_value at 1, overwritten. rewrite fold_map_set_get_other by done.
    by apply lookup_value_cloned.
Qed.

Lemma applyEffects_overwrites_only_effect_keys_witness :
  exists s h',
    GOAPState.applyEffects 1%nat (effects Scenario.create) Scenario.heap0 = (Return s, h')
    /\ GOAPState.get s "exists" h' = (Return (VBool true), h')
    /\ (GOAPState.get s "deployed" h').1 = Return (VBool true).
Proof.
  destruct (applyEffects_overwrites_only_effect_keys 1%nat (effects Scenario.create)
              Scenario.heap0)
    as (s & h' & Happly & _ & _ & Hin & Hout).
  - apply (bool_decide_unpack _). vm_compute. exact I.
  - apply (bool_decide_unpack _). vm_compute. exact I.
  - exists s, h'. split; [exact Happly|]. split.
    + apply (Hin "exists"%string (VBool true)). cbn. left.
    + rewrite Hout; [reflexivity|]. apply (bool_decide_unpack _). vm_compute. exact I.
Defined.

(** X4. The state [applyEffects] builds satisfies the effects it was
    given, provided every effect value is truthy or [false]. *)
Theorem applyEffects_then_satisfies_effects this (effects : Obj) h :
  NoDup effects.*1 ->
  Forall (fun kv => truthy kv.2 = true \/ kv.2 = VBool false) effects ->
  exists s h',
    GOAPState.applyEffects this effects h = (Return s, h')
    /\ GOAPState.satisfies s effects h' = (Return true, h').
Proof.
  intros Hnd Hvals. rewrite applyEffects_run. eexists _, _. split; [reflexivity|].
  rewrite satisfies_run, heap_read_fresh. f_equal. f_equal.
  unfold holds. apply forallb_forall. intros [k v] Hin.
  apply list_elem_of_In in Hin.
  unfold lookup_value, overwritten. rewrite (fold_map_set_get_elem effects _ k v Hnd Hin).
  rewrite list.Forall_forall in Hvals. specialize (Hvals _ Hin). cbn in Hvals |- *.
  unfold strict_eq, or_else. destruct Hvals as [Ht | ->].
  - rewrite Ht. by apply bool_decide_eq_true.
  - reflexivity.
Qed.

Lemma applyEffects_then_satisfies_effects_witness :
  exists s h',
    GOAPState.applyEffects 0%nat (effects Scenario.code) Scenario.heap0 = (Return s, h')
    /\ GOAPState.satisfies s (effects Scenario.code) h' = (Return true, h').
Proof.
  apply (applyEffects_then_satisfies_effects 0%nat (effects Scenario.code) Scenario.heap0).
  - apply (bool_decide_unpack _). vm_compute. exact I.
  - repeat constructor.
Defined.

(** X5. A condition that asks for a falsy value other than [false]
    ([undefined], [null], [0] or the empty string) is never satisfied,
    whatever the state holds. *)
Theorem satisfies_never_holds_for_falsy_condition this (conditions : Obj) k v h :
  (k, v) ∈ conditions ->
  truthy v = false ->
  v <> VBool false ->
  GOAPState.satisfies this conditions h = (Return false, h).
Proof.
  intros Hin Hfalsy Hne. rewrite satisfies_run. f_equal. f_equal.
  unfold holds. apply not_true_is_false. intros Hall.
  rewrite forallb_forall in Hall. apply list_elem_of_In in Hin.
  specialize (Hall _ Hin). cbn in Hall. unfold strict_eq in Hall.
  apply bool_decide_eq_true in Hall. unfold lookup_value, or_else in Hall.
  destruct (truthy (map_get _ _)) eqn:Ht; congruence.
Qed.

Lemma satisfies_never_holds_for_falsy_condition_witness :
  GOAPState.satisfies 0%nat [("retries"%string, VNum 0)] [[("retries"%string, VNum 0)]]
  = (Return false, [[("retries"%string, VNum 0)]]).
Proof.
  apply (satisfies_never_holds_for_falsy_condition 0%nat _ "retries" (VNum 0)).
  - left.
  - reflexivity.
  - discriminate.
Defined.

(** X6. [toString] does not tell a state from its clone, nor from the
    state [applyEffects] builds from it with no effect. *)
Theorem toString_unchanged_by_clone_and_empty_effects this h :
  NoDup (heap_read h this).*1 ->
  exists c h1 s h2,
    GOAPState.clone this h = (Return c, h1)
    /\ (GOAPState.toString c h1).1 = (GOAPState.toString this h).1
    /\ GOAPState.applyEffects this [] h = (Return s, h2)
    /\ (GOAPState.toString s h2).1 = (GOAPState.toString this h).1.
Proof.
  intros Hnd. rewrite clone_run, applyEffects_run. eexists _, _, _, _.
  split; [reflexivity|]. split; [|split; [reflexivity|]].
  - rewrite !toString_run, heap_read_fresh. cbn. f_equal. f_equal.
    rewrite cloned_Object_fromEntries by done. by apply Object_fromEntries_idemp.
  - rewrite !toString_run, heap_read_fresh. cbn. f_equal. f_equal.
    rewrite cloned_Object_fromEntries by done. by apply Object_fromEntries_idemp.
Qed.

Lemma toString_unchanged_by_clone_and_empty_effects_witness :
  exists c h1,
    GOAPState.clone 0%nat [[("b"%string, VBool true); ("2"%string, VNull)]] = (Return c, h1)
    /\ (GOAPState.toString c h1).1
       = (GOAPState.toString 0%nat [[("b"%string, VBool true); ("2"%string, VNull)]]).1.
Proof.
  destruct (toString_unchanged_by_clone_and_empty_effects 0%nat
              [[("b"%string, VBool true); ("2"%string, VNull)]])
    as (c & h1 & _ & _ & Hclone & Hstr & _).
  - apply (bool_decide_unpack _). vm_compute. exact I.
  - by exists c, h1.
Defined.

(** ** The heuristic and the goal test *)

Lemma holds_Permutation (m : JSMap) (c1 c2 : Obj) :
  c1 ≡ₚ c2 -> holds m c1 = holds m c2.
Proof.
  intros Hperm. unfold holds. apply eq_true_iff_eq.
  rewrite !forallb_forall. split; intros Hall x Hx; apply Hall.
  - apply list_elem_of_In. rewrite Hperm. by apply list_elem_of_In.
  - apply list_elem_of_In. rewrite <- Hperm. by apply list_elem_of_In.
Qed.

Lemma holds_ext (m1 m2 : JSMap) (c : Obj) :
  (forall k, lookup_value m1 k = lookup_value m2 k) -> holds m1 c = holds m2 c.
Proof.
  intros Hext. unfold holds. induction c as [|kv c IH]; [reflexivity|].
  cbn. by rewrite Hext, IH.
Qed.

Lemma distance_from_acc (m : JSMap) (g : entries) d :
  distance_from m g d = d + distance_from m g 0.
Proof.
  unfold distance_from. revert d.
  induction g as [|kv g IH]; intros d; cbn [fold_left]; [lia|].
  set (b := negb (strict_eq (lookup_value m kv.1) kv.2)).
  rewrite (IH (if b then d + 1 else d)), (IH (if b then 0 + 1 else 0)).
  destruct b; lia.
Qed.

Lemma distance_from_bounds (m : JSMap) (g : entries) :
  0 <= distance_from m g 0 <= Z.of_nat (length g).
Proof.
  induction g as [|kv g IH].
  - cbn. lia.
  - unfold distance_from in *. cbn [fold_left length].
    fold (distance_from m g (if negb (strict_eq (lookup_value m kv.1) kv.2) then 0 + 1 else 0)).
    rewrite distance_from_acc. unfold distance_from.
    destruct (negb _); lia.
Qed.

Lemma distance_from_zero (m : JSMap) (g : entries) :
  distance_from m g 0 = 0 <-> holds m g = true.
Proof.
  induction g as [|kv g IH].
  - cbn. done.
  - unfold distance_from, holds in *. cbn [fold_left forallb].
    fold (distance_from m g (if negb (strict_eq (lookup_value m kv.1) kv.2) then 0 + 1 else 0)).
    rewrite distance_from_acc. pose proof (distance_from_bounds m g) as Hb.
    unfold distance_from in *.
    destruct (strict_eq _ _); cbn [negb andb].
    + rewrite <- IH. lia.
    + split; [lia | discriminate].
Qed.

(** X7. [getDistance] counts the goal's propositions the state does
    not match: it lies between 0 and the size of the goal, and it is 0
    exactly when the state passes the goal test of [generatePlan]. *)
Theorem getDistance_zero_iff_goal_satisfied this goalState h :
  NoDup (heap_read h goalState).*1 ->
  exists d,
    GOAPState.getDistance this goalState h = (Return d, h)
    /\ 0 <= d <= Z.of_nat (length (heap_read h goalState))
    /\ (d = 0 <->
        GOAPState.satisfies this (Object_fromEntries (heap_read h goalState)) h
        = (Return true, h)).
Proof.
  intros Hnd. rewrite getDistance_run. eexists. split; [reflexivity|].
  split; [apply distance_from_bounds|].
  rewrite satisfies_run, distance_from_zero.
  rewrite (holds_Permutation _ _ _ (Object_fromEntries_Permutation _ Hnd)).
  split; [by intros -> | by intros [= ->]].
Qed.

Lemma getDistance_zero_iff_goal_satisfied_witness :
  exists d,
    GOAPState.getDistance 1%nat 1%nat Scenario.heap0 = (Return d, Scenario.heap0)
    /\ d = 0.
Proof.
  destruct (getDistance_zero_iff_goal_satisfied 1%nat 1%nat Scenario.heap0)
    as (d & Hd & _ & Hzero).
  { apply (bool_decide_unpack _). vm_compute. exact I. }
  exists d. split; [exact Hd|]. apply Hzero. vm_compute. reflexivity.
Defined.

(** ** More on [generatePlan] *)

(** X8. A goal that asks for a falsy value other than [false] is never
    reached: [generatePlan] returns [null], even from a start state that
    holds that very value. *)
Theorem generatePlan_null_for_falsy_goal this start goal h k v :
  (start < length h)%nat ->
  (goal < length h)%nat ->
  NoDup (heap_read h goal).*1 ->
  (k, v) ∈ heap_read h goal ->
  truthy v = false ->
  v <> VBool false ->
  (GOAPPlanner.generatePlan this start goal h).1 = Return None.
Proof.
  intros Hstart Hgoal Hnd Hin Hfalsy Hne.
  destruct (generatePlan_returns this start goal h) as (r & h' & Hret & Hpre).
  rewrite Hret. cbn. f_equal. destruct r as [plan|]; [|reflexivity]. exfalso.
  destruct (generatePlan_ok this start goal h plan h' Hstart Hret)
    as (mf & c & _ & Hholds).
  rewrite (heap_read_prefix h h' goal) in Hholds by done.
  rewrite (holds_Permutation _ _ _ (Object_fromEntries_Permutation _ Hnd)) in Hholds.
  unfold holds in Hholds. rewrite forallb_forall in Hholds.
  apply list_elem_of_In in Hin. specialize (Hholds _ Hin). cbn in Hholds.
  apply bool_decide_eq_true in Hholds. unfold lookup_value, or_else in Hholds.
  destruct (truthy (map_get _ _)) eqn:Ht; congruence.
Qed.

Lemma generatePlan_null_for_falsy_goal_witness :
  (GOAPPlanner.generatePlan Scenario.plannerA 0%nat 1%nat
     [[("retries"%string, VNum 0)]; [("retries"%string, VNum 0)]]).1
  = Return None.
Proof.
  apply (generatePlan_null_for_falsy_goal Scenario.plannerA 0%nat 1%nat _ "retries" (VNum 0)).
  - cbn. lia.
  - cbn. lia.
  - apply (bool_decide_unpack _). vm_compute. exact I.
  - cbn. left.
  - reflexivity.
  - discriminate.
Defined.

(** X9. With no action registered, [generatePlan] returns the empty
    plan when the start state satisfies the goal and [null] otherwise. *)
Theorem generatePlan_with_empty_repertoire this start goal h :
  actions this = [] ->
  (start < length h)%nat ->
  (goal < length h)%nat ->
  (GOAPPlanner.generatePlan this start goal h).1
  = Return (if holds (heap_read h start) (Object_fromEntries (heap_read h goal))
            then Some [] else None).
Proof.
  intros Hempty Hstart Hgoal.
  destruct (generatePlan_returns this start goal h) as (r & h' & Hret & Hpre).
  rewrite Hret. cbn. f_equal.
  destruct (holds _ _) eqn:Hholds.
  - unfold GOAPPlanner.generatePlan in Hret.
    rewrite (bind_Return _ _ _ _ _ (getDistance_run _ _ _)) in Hret.
    rewrite (search_first_node_at_goal this goal 999 (mkNode start None 0 _ _) [] h) in Hret.
    + by injection Hret as <- _.
    + rewrite satisfies_run. cbn [GOAPNode.state]. by rewrite Hholds.
  - destruct r as [plan|]; [|reflexivity]. exfalso.
    destruct (generatePlan_ok this start goal h plan h' Hstart Hret)
      as (mf & c & Hrun & Hgoalholds).
    rewrite (heap_read_prefix h h' goal) in Hgoalholds by done.
    pose proof (plan_run_registered _ _ _ _ _ _ Hrun) as Hreg.
    destruct plan as [|a plan].
    + cbn in Hrun. injection Hrun as <- _. congruence.
    + inversion Hreg as [|? ? Ha _]; subst.
      unfold GOAPPlanner.actions_values in Ha. rewrite Hempty in Ha.
      by apply elem_of_nil in Ha.
Qed.

Lemma generatePlan_with_empty_repertoire_witness :
  (GOAPPlanner.generatePlan GOAPPlanner.new 0%nat 1%nat Scenario.heap0).1 = Return None
  /\ (GOAPPlanner.generatePlan GOAPPlanner.new 1%nat 1%nat Scenario.heap0).1
     = Return (Some []).
Proof.
  split.
  - apply (generatePlan_with_empty_repertoire GOAPPlanner.new 0%nat 1%nat Scenario.heap0);
      [reflexivity | cbn; lia | cbn; lia].
  - apply (generatePlan_with_empty_repertoire GOAPPlanner.new 1%nat 1%nat Scenario.heap0);
      [reflexivity | cbn; lia | cbn; lia].
Defined.

Lemma plan_cost_at_least_length (plan : list GOAPAction) :
  Forall (fun a => 1 <= cost a) plan -> Z.of_nat (length plan) <= plan_cost plan.
Proof.
  induction 1 as [|a plan Ha _ IH].
  - unfold plan_cost. cbn. lia.
  - rewrite plan_cost_cons. cbn [length]. lia.
Qed.

(** X10. The cost cap bounds the length of plans: when every registered
    action costs at least 1, a plan [generatePlan] returns has at most
    [maxSearchDepth] actions, and its total cost, as [analyzePlan] sums
    it, is at most [maxSearchDepth] unless the plan is empty. *)
Theorem generatePlan_length_within_cost_cap this start goal h plan h' :
  (start < length h)%nat ->
  Forall (fun a => 1 <= cost a) (GOAPPlanner.actions_values this) ->
  GOAPPlanner.generatePlan this start goal h = (Return (Some plan), h') ->
  plan <> [] ->
  totalCost (GOAPPlanner.analyzePlan plan) <= maxSearchDepth this
  /\ Z.of_nat (length plan) <= maxSearchDepth this.
Proof.
  intros Hstart Hcosts Hgen Hne.
  destruct (generatePlan_ok this start goal h plan h' Hstart Hgen)
    as (mf & c & Hrun & _).
  pose proof (plan_run_within_cap _ _ _ _ _ _ Hrun plan (reflexivity _) Hne) as Hcap.
  fold (plan_cost plan). split; [lia|].
  assert (Hplan : Forall (fun a => 1 <= cost a) plan).
  { pose proof (plan_run_registered _ _ _ _ _ _ Hrun) as Hreg.
    rewrite list.Forall_forall in Hreg, Hcosts. apply list.Forall_forall.
    intros a Ha. by apply Hcosts, Hreg. }
  pose proof (plan_cost_at_least_length plan Hplan). lia.
Qed.

Lemma generatePlan_length_within_cost_cap_witness :
  exists plan h',
    GOAPPlanner.generatePlan Scenario.plannerB 0%nat 1%nat Scenario.heap0
    = (Return (Some plan), h')
    /\ totalCost (GOAPPlanner.analyzePlan plan) <= 20
    /\ Z.of_nat (length plan) <= 20.
Proof.
  eexists _, _. split; [vm_compute; reflexivity|].
  eapply (generatePlan_length_within_cost_cap Scenario.plannerB 0%nat 1%nat Scenario.heap0).
  - cbn. lia.
  - apply (bool_decide_unpack _). vm_compute. exact I.
  - vm_compute. reflexivity.
  - discriminate.
Defined.

(** ** [GOAPAction.apply] *)

(** X11. [apply] tests applicability before it builds anything: on a
    state that does not satisfy the preconditions it throws, naming the
    action, and the heap is as it was; otherwise it is [applyEffects]. *)
Theorem apply_throws_without_effect_when_inapplicable (a : GOAPAction) state h :
  exists applicable,
    GOAPAction.isApplicable a state h = (Return applicable, h)
    /\ if applicable
       then GOAPAction.apply a state h = GOAPState.applyEffects state (effects a) h
       else GOAPAction.apply a state h
            = (Throw ("Action " +:+ name a +:+ " not applicable in current state"), h).
Proof.
  rewrite isApplicable_run. eexists. split; [reflexivity|].
  destruct (holds _ _) eqn:Hp.
  - rewrite apply_run_applicable by done. by rewrite applyEffects_run.
  - by apply apply_run_inapplicable.
Qed.

(** ** [addAction] *)

Lemma actions_set_keys (m : list (string * GOAPAction)) key a :
  (GOAPPlanner.actions_set m key a).*1
  = if bool_decide (key ∈ m.*1) then m.*1 else m.*1 ++ [key].
Proof.
  induction m as [|[k b] m IH]; cbn; [reflexivity|].
  destruct (bool_decide (k = key)) eqn:Hk; cbn.
  - apply bool_decide_eq_true in Hk. subst k.
    rewrite bool_decide_true by left. reflexivity.
  - apply bool_decide_eq_false in Hk. rewrite IH.
    destruct (bool_decide (key ∈ m.*1)) eqn:Hin.
    + apply bool_decide_eq_true in Hin. rewrite bool_decide_true by (by right). reflexivity.
    + apply bool_decide_eq_false in Hin.
      rewrite bool_decide_false; [reflexivity|].
      intros Hc. apply elem_of_cons in Hc as [Hc | Hc]; [congruence | done].
Qed.

Lemma actions_set_elem (m : list (string * GOAPAction)) key a k b :
  NoDup m.*1 ->
  (k, b) ∈ GOAPPlanner.actions_set m key a
  <-> (k = key /\ b = a) \/ ((k, b) ∈ m /\ k <> key).
Proof.
  induction m as [|[k' b'] m IH]; intros Hnd; cbn.
  - rewrite list_elem_of_singleton. split.
    + intros [= -> ->]. by left.
    + intros [[-> ->] | [Hin _]]; [done | by apply elem_of_nil in Hin].
  - cbn in Hnd. apply NoDup_cons in Hnd as [Hk' Hnd].
    destruct (bool_decide (k' = key)) eqn:Hk.
    + apply bool_decide_eq_true in Hk. subst k'.
      rewrite !elem_of_cons. split.
      * intros [[= -> ->] | Hin]; [by left|]. right. split; [by right|].
        intros ->. apply Hk'. apply list_elem_of_fmap. by exists (key, b).
      * intros [[-> ->] | [[[= -> ->] | Hin] Hne]]; [by left | done | by right].
    + apply bool_decide_eq_false in Hk.
      rewrite !elem_of_cons, (IH Hnd). split.
      * intros [[= -> ->] | [[-> ->] | [Hin Hne]]].
        -- right. split; [by left | done].
        -- by left.
        -- right. split; [by right | done].
      * intros [[-> ->] | [[[= -> ->] | Hin] Hne]].
        -- right. by left.
        -- by left.
        -- right. right. by split.
Qed.

(** X12. [addAction] keeps the repertoire keyed by unique names.  The
    action added is registered; an action registered before stays
    registered exactly when its name is not the new action's name; and
    the repertoire grows by one entry only when the name is new. *)
Theorem addAction_replaces_by_name this a :
  repertoire_ok this ->
  repertoire_ok (GOAPPlanner.addAction this a)
  /\ a ∈ GOAPPlanner.actions_values (GOAPPlanner.addAction this a)
  /\ (forall b,
        b ∈ GOAPPlanner.actions_values (GOAPPlanner.addAction this a)
        <-> b = a \/ (b ∈ GOAPPlanner.actions_values this /\ name b <> name a))
  /\ length (actions (GOAPPlanner.addAction this a))
     = (if bool_decide (name a ∈ (actions this).*1)
        then length (actions this) else S (length (actions this)))
  /\ maxSearchDepth (GOAPPlanner.addAction this a) = maxSearchDepth this.
Proof.
  intros [Hnd Hkeyed]. unfold repertoire_ok, GOAPPlanner.addAction, GOAPPlanner.actions_values.
  cbn [actions maxSearchDepth].
  assert (Hvalues : forall b,
            b ∈ (GOAPPlanner.actions_set (actions this) (name a) a).*2
            <-> b = a \/ (b ∈ (actions this).*2 /\ name b <> name a)).
  { intros b. rewrite !list_elem_of_fmap. split.
    - intros ([k b'] & -> & Hin). cbn.
      apply (actions_set_elem _ _ _ _ _ Hnd) in Hin as [[_ ->] | [Hin Hne]]; [by left|].
      right. split; [by exists (k, b')|].
      rewrite list.Forall_forall in Hkeyed. specialize (Hkeyed _ Hin). cbn in Hkeyed.
      congruence.
    - intros [-> | [([k b'] & -> & Hin) Hne]].
      + exists (name a, a). split; [reflexivity|].
        apply (actions_set_elem _ _ _ _ _ Hnd). by left.
      + exists (k, b'). split; [reflexivity|].
        apply (actions_set_elem _ _ _ _ _ Hnd). right. split; [done|].
        rewrite list.Forall_forall in Hkeyed. specialize (Hkeyed _ Hin). cbn in Hkeyed, Hne.
        congruence. }
  split; [split|].
  - rewrite actions_set_keys. case_bool_decide as Hin; [done|].
    apply NoDup_app. split; [done|]. split; [|apply NoDup_singleton].
    intros x Hx Hx'. apply list_elem_of_singleton in Hx'. by subst.
  - apply list.Forall_forall. intros [k b] Hin.
    apply (actions_set_elem _ _ _ _ _ Hnd) in Hin as [[-> ->] | [Hin _]]; [reflexivity|].
    rewrite list.Forall_forall in Hkeyed. by apply (Hkeyed (k, b)).
  - split; [apply Hvalues; by left|]. split; [exact Hvalues|]. split; [|reflexivity].
    rewrite <- !(length_fmap fst), actions_set_keys.
    case_bool_decide; [reflexivity|]. rewrite length_app. cbn. lia.
Qed.

Lemma addAction_replaces_by_name_witness :
  repertoire_ok (GOAPPlanner.addAction Scenario.plannerA Scenario.quickdeploy)
  /\ Scenario.quickdeploy
     ∈ GOAPPlanner.actions_values
         (GOAPPlanner.addAction Scenario.plannerA Scenario.quickdeploy).
Proof.
  destruct (addAction_replaces_by_name Scenario.plannerA Scenario.quickdeploy)
    as (Hok & Hin & _).
  - split; apply (bool_decide_unpack _); vm_compute; exact I.
  - split; [exact Hok | exact Hin].
Defined.

(** ** [canRunInParallel] and [findParallelizableActions] *)

Lemma existsb_elem_of_comm (l1 l2 : list string) :
  existsb (fun key => bool_decide (key ∈ l2)) l1
  = existsb (fun key => bool_decide (key ∈ l1)) l2.
Proof.
  apply eq_true_iff_eq. rewrite !existsb_exists. split.
  - intros (x & Hx & Hx'). apply bool_decide_eq_true in Hx'.
    exists x. split; [by apply list_elem_of_In|].
    apply bool_decide_eq_true. by apply list_elem_of_In.
  - intros (x & Hx & Hx'). apply bool_decide_eq_true in Hx'.
    exists x. split; [by apply list_elem_of_In|].
    apply bool_decide_eq_true. by apply list_elem_of_In.
Qed.

Lemma canRunInParallel_comm a b :
  GOAPPlanner.canRunInParallel a b = GOAPPlanner.canRunInParallel b a.
Proof.
  unfold GOAPPlanner.canRunInParallel. cbn zeta.
  rewrite (existsb_elem_of_comm (Object_keys (effects a)) (Object_keys (effects b))).
  destruct (existsb _ (Object_keys (effects a))), (existsb _ (Object_keys (effects b)));
    reflexivity.
Qed.

(** X13. [canRunInParallel] does not depend on the order of its two
    actions. *)
Theorem canRunInParallel_symmetric a b :
  GOAPPlanner.canRunInParallel a b = GOAPPlanner.canRunInParallel b a.
Proof. apply canRunInParallel_comm. Qed.

Section Groups.

Lemma pairwise_parallel_snoc group a :
  pairwise_parallel group ->
  forallb (fun groupAction => GOAPPlanner.canRunInParallel a groupAction) group = true ->
  pairwise_parallel (group ++ [a]).
Proof.
  intros Hpair Hall i j x y Hij Hx Hy.
  rewrite forallb_forall in Hall.
  assert (Hnew : forall z, z ∈ group -> GOAPPlanner.canRunInParallel a z = true).
  { intros z Hz. apply Hall. by apply list_elem_of_In. }
  destruct (decide (i < length group)%nat) as [Hi | Hi];
    destruct (decide (j < length group)%nat) as [Hj | Hj].
  - rewrite lookup_app_l in Hx, Hy by done. by eapply Hpair.
  - rewrite lookup_app_l in Hx by done.
    rewrite lookup_app_r in Hy by lia.
    apply list_lookup_singleton_Some in Hy as [_ <-].
    rewrite canRunInParallel_comm. apply Hnew. by eapply list_elem_of_lookup_2.
  - rewrite lookup_app_r in Hx by lia. rewrite lookup_app_l in Hy by done.
    apply list_lookup_singleton_Some in Hx as [_ <-].
    apply Hnew. by eapply list_elem_of_lookup_2.
  - rewrite lookup_app_r in Hx, Hy by lia.
    apply list_lookup_singleton_Some in Hx as [Hi' _].
    apply list_lookup_singleton_Some in Hy as [Hj' _]. lia.
Qed.

Lemma pairwise_parallel_singleton a : pairwise_parallel [a].
Proof.
  intros i j x y Hij Hx Hy.
  apply list_lookup_singleton_Some in Hx as [-> _].
  apply list_lookup_singleton_Some in Hy as [-> _]. done.
Qed.

Lemma findParallelizableActions_loop_groups plan groups current :
  Forall (fun g => (2 <= length g <= 3)%nat /\ pairwise_parallel g) groups ->
  group_ok current ->
  Forall (fun g => (2 <= length g <= 3)%nat /\ pairwise_parallel g)
         (GOAPPlanner.findParallelizableActions_loop plan groups current).
Proof.
  revert groups current. induction plan as [|a plan IH]; intros groups current Hgroups [Hlen Hpair].
  - cbn [GOAPPlanner.findParallelizableActions_loop].
    destruct (1 <? length current)%nat eqn:Hmany; [|done].
    apply Nat.ltb_lt in Hmany. apply Forall_app. split; [done|].
    constructor; [|constructor]. split; [lia | done].
  - cbn [GOAPPlanner.findParallelizableActions_loop].
    destruct (forallb _ current && (length current <? 3)%nat) eqn:Hpush.
    + apply andb_prop in Hpush as [Hall Hroom]. apply Nat.ltb_lt in Hroom.
      apply IH; [done|]. split.
      * rewrite length_app. cbn. lia.
      * by apply pairwise_parallel_snoc.
    + apply IH.
      * destruct (1 <? length current)%nat eqn:Hmany; [|done].
        apply Nat.ltb_lt in Hmany. apply Forall_app. split; [done|].
        constructor; [|constructor]. split; [lia | done].
      * split; [cbn; lia | apply pairwise_parallel_singleton].
Qed.

Lemma findParallelizableActions_loop_sublist plan groups current :
  concat (GOAPPlanner.findParallelizableActions_loop plan groups current)
  `sublist_of` concat groups ++ current ++ plan.
Proof.
  revert groups current. induction plan as [|a plan IH]; intros groups current.
  - cbn [GOAPPlanner.findParallelizableActions_loop]. rewrite app_nil_r.
    destruct (1 <? length current)%nat.
    + rewrite concat_app. cbn. by rewrite app_nil_r.
    + by apply sublist_inserts_r.
  - cbn [GOAPPlanner.findParallelizableActions_loop].
    destruct (forallb _ current && (length current <? 3)%nat).
    + etrans; [apply IH|]. by rewrite <- (app_assoc current [a] plan).
    + etrans; [apply IH|]. destruct (1 <? length current)%nat.
      * rewrite concat_app. cbn. rewrite app_nil_r, <- app_assoc. done.
      * apply sublist_app; [done|]. by apply sublist_inserts_l.
Qed.

End Groups.

(** X14. Every group [findParallelizableActions] returns has two or
    three actions, and any two actions of a group can run in parallel. *)
Theorem findParallelizableActions_groups_are_small_and_compatible plan :
  Forall (fun g => (2 <= length g <= 3)%nat /\ pairwise_parallel g)
         (GOAPPlanner.findParallelizableActions plan).
Proof.
  apply findParallelizableActions_loop_groups; [constructor|].
  split; [cbn; lia|]. intros i j a b _ Ha. by rewrite lookup_nil in Ha.
Qed.

(** X15. The groups are taken from the plan in order: laid end to end
    they are a subsequence of the plan, so no action is grouped twice
    and the plan's order is kept. *)
Theorem findParallelizableActions_groups_follow_plan plan :
  concat (GOAPPlanner.findParallelizableActions plan) `sublist_of` plan.
Proof. apply (findParallelizableActions_loop_sublist plan [] []). Qed.

(** ** More on [estimateExecutionTime] *)

Lemma strategy_duration_bounds tag : 100 <= strategy_duration tag <= 250.
Proof. unfold strategy_duration. repeat case_bool_decide; lia. Qed.

(** X16. The estimated time of a plan lies between 100 and 250 per
    action (for tags that name no member of [Object.prototype]); the
    other figures of [analyzePlan] count the plan: [actionCount] and the
    number of [executionTypes] are its length. *)
Theorem analyzePlan_time_between_100_and_250_per_action plan :
  Forall (fun a => executionType a ∉ GOAPPlanner.Object_prototype_names) plan ->
  exists t,
    estimatedTime (GOAPPlanner.analyzePlan plan) = Some t
    /\ 100 * Z.of_nat (length plan) <= t <= 250 * Z.of_nat (length plan)
    /\ actionCount (GOAPPlanner.analyzePlan plan) = length plan
    /\ length (executionTypes (GOAPPlanner.analyzePlan plan)) = length plan.
Proof.
  intros Hplan. eexists. split.
  { cbn [GOAPPlanner.analyzePlan estimatedTime]. unfold GOAPPlanner.estimateExecutionTime.
    by rewrite estimateExecutionTime_fold. }
  split; [|split; [reflexivity | cbn; apply length_map]].
  clear Hplan. induction plan as [|a plan IH]; cbn [map foldr length]; [lia|].
  pose proof (strategy_duration_bounds (executionType a)). lia.
Qed.

Lemma analyzePlan_time_between_100_and_250_per_action_witness :
  exists t,
    estimatedTime
      (GOAPPlanner.analyzePlan [Scenario.create; Scenario.code; Scenario.deploy]) = Some t
    /\ 300 <= t <= 750.
Proof.
  destruct (analyzePlan_time_between_100_and_250_per_action
              [Scenario.create; Scenario.code; Scenario.deploy])
    as (t & Ht & Hbounds & _).
  - apply (bool_decide_unpack _). vm_compute. exact I.
  - exists t. split; [exact Ht|]. cbn in Hbounds. lia.
Defined.

(** ** More on the OODA loop *)

Lemma execute_leaves_heap (a : GOAPAction) h :
  (exists res, GOAPAction.execute a h = (Return res, h))
  \/ GOAPAction.execute a h = (Throw ("Unknown execution type: " +:+ executionType a), h).
Proof.
  unfold GOAPAction.execute.
  repeat (case_bool_decide; [left; by eexists|]). by right.
Qed.

(** X17. A successful step: when [execute] resolves and the action is
    applicable in the world state, [executeNextAction] advances the
    step index by one, makes the state built by [applyEffects] the new
    world state (the old one is left as it was), and appends one entry
    holding the step, the action's name and the result. *)
Theorem executeNextAction_advances_on_success this plan a res now h :
  currentPlan this = Some plan ->
  plan !! currentStep this = Some a ->
  GOAPAction.execute a h = (Return res, h) ->
  GOAPAction.isApplicable a (worldState this) h = (Return true, h) ->
  exists this' h',
    OODALoop.executeNextAction this now h = (Return this', h')
    /\ GOAPState.applyEffects (worldState this) (effects a) h
       = (Return (worldState this'), h')
    /\ h `prefix_of` h'
    /\ currentStep this' = S (currentStep this)
    /\ executionHistory this'
       = executionHistory this
         ++ [mkEntry (StepIndex (currentStep this)) (name a) (Some res) None None now]
    /\ currentPlan this' = currentPlan this
    /\ monitoring this' = monitoring this.
Proof.
  intros Hplan Hstep Hexec Happ.
  rewrite isApplicable_run in Happ. injection Happ as Happ.
  unfold OODALoop.executeNextAction. rewrite Hplan, Hstep.
  unfold try_catch. rewrite (bind_Return _ _ _ _ _ Hexec).
  rewrite (bind_Return _ _ _ _ _ (apply_run_applicable a _ h Happ)).
  eexists _, _. split; [reflexivity|].
  cbn [worldState currentStep executionHistory currentPlan monitoring].
  rewrite applyEffects_run. repeat split; try done. by apply prefix_app_r.
Qed.

Lemma executeNextAction_advances_on_success_witness :
  exists this' h',
    OODALoop.executeNextAction LoopScenario.loop0 "t1" LoopScenario.heap0
    = (Return this', h')
    /\ currentStep this' = 1%nat
    /\ (GOAPState.get (worldState this') "exists" h').1 = Return (VBool true).
Proof.
  destruct (executeNextAction_advances_on_success LoopScenario.loop0
              [Scenario.create] Scenario.create ResultCode "t1" LoopScenario.heap0)
    as (this' & h' & Hrun & _ & _ & Hstep & _);
    [reflexivity | reflexivity | reflexivity | reflexivity |].
  exists this', h'. split; [exact Hrun|]. split; [exact Hstep|].
  vm_compute in Hrun. injection Hrun as <- <-. reflexivity.
Defined.

(** X18. A step whose action is not applicable: [execute] resolves,
    [apply] throws, and the error is caught.  The entry appended holds
    the message of [apply]; the world state, the step index and the heap
    are as they were. *)
Theorem executeNextAction_records_inapplicable_action this plan a res now h :
  currentPlan this = Some plan ->
  plan !! currentStep this = Some a ->
  GOAPAction.execute a h = (Return res, h) ->
  GOAPAction.isApplicable a (worldState this) h = (Return false, h) ->
  exists this',
    OODALoop.executeNextAction this now h = (Return this', h)
    /\ executionHistory this'
       = executionHistory this
         ++ [mkEntry (StepIndex (currentStep this)) (name a) None
               (Some ("Action " +:+ name a +:+ " not applicable in current state"))
               None now]
    /\ worldState this' = worldState this
    /\ currentStep this' = currentStep this
    /\ monitoring this' = monitoring this.
Proof.
  intros Hplan Hstep Hexec Happ.
  rewrite isApplicable_run in Happ. injection Happ as Happ.
  unfold OODALoop.executeNextAction. rewrite Hplan, Hstep.
  unfold try_catch. rewrite (bind_Return _ _ _ _ _ Hexec).
  unfold bind. rewrite (apply_run_inapplicable a _ h Happ).
  eexists. split; [reflexivity|]. repeat split.
Qed.

Lemma executeNextAction_records_inapplicable_action_witness :
  exists this',
    OODALoop.executeNextAction
      (mkLoop Scenario.plannerA (Some [Scenario.deploy]) 0 0 1 [] true) "t1"
      Scenario.heap0
    = (Return this', Scenario.heap0)
    /\ executionHistory this'
       = [mkEntry (StepIndex 0) "deploy" None
            (Some "Action deploy not applicable in current state"%string) None "t1"]
    /\ currentStep this' = 0%nat.
Proof.
  destruct (executeNextAction_records_inapplicable_action
              (mkLoop Scenario.plannerA (Some [Scenario.deploy]) 0 0 1 [] true)
              [Scenario.deploy] Scenario.deploy ResultCode "t1" Scenario.heap0)
    as (this' & Hrun & Hhist & _ & Hstep & _);
    [reflexivity | reflexivity | reflexivity | reflexivity |].
  exists this'. split; [exact Hrun|]. split; [exact Hhist | exact Hstep].
Defined.

Section Cycle.

Variable this : OODALoop.

Lemma loop_step_prefix h0 h this' h' :
  h0 `prefix_of` h -> loop_step this h this' h' -> loop_step this h0 this' h'.
Proof. intros Hpre (Hpre' & Hrest). split; [by etrans | exact Hrest]. Qed.

Ltac history_grows :=
  first [ exists []; split; [by rewrite app_nil_r | cbn; lia]
        | eexists [_]; split; [reflexivity | cbn; lia] ].

Lemma executeNextAction_step plan now h :
  currentPlan this = Some plan ->
  exists this' h',
    OODALoop.executeNextAction this now h = (Return this', h')
    /\ loop_step this h this' h'.
Proof.
  intros Hplan. unfold OODALoop.executeNextAction. rewrite Hplan.
  destruct (plan !! currentStep this) as [a|].
  2:{ exists this, h. split; [reflexivity|].
      split; [done|]. split; [done|]. split; [done|]. history_grows. }
  unfold try_catch.
  destruct (execute_leaves_heap a h) as [[res Hexec] | Hexec].
  - rewrite (bind_Return _ _ _ _ _ Hexec).
    destruct (holds (heap_read h (worldState this)) (preconditions a)) eqn:Happ.
    + rewrite (bind_Return _ _ _ _ _ (apply_run_applicable a _ h Happ)).
      eexists _, _. split; [reflexivity|]. split; [by apply prefix_app_r|].
      split; [done|]. split; [done|]. history_grows.
    + unfold bind. rewrite (apply_run_inapplicable a _ h Happ).
      eexists _, _. split; [reflexivity|].
      split; [done|]. split; [done|]. split; [done|]. history_grows.
  - unfold bind. rewrite Hexec.
    eexists _, _. split; [reflexivity|].
    split; [done|]. split; [done|]. split; [done|]. history_grows.
Qed.

Lemma replan_step now h :
  exists this' h',
    OODALoop.replan this now h = (Return this', h')
    /\ loop_step this h this' h'.
Proof.
  unfold OODALoop.replan.
  destruct (generatePlan_returns (planner this) (worldState this) (goalState this) h)
    as (r & h' & Hgen & Hpre).
  rewrite (bind_Return _ _ _ _ _ Hgen). destruct r as [plan|].
  - eexists _, h'. split; [reflexivity|].
    split; [done|]. split; [done|]. split; [done|]. history_grows.
  - eexists _, h'. split; [reflexivity|].
    split; [done|]. split; [done|]. split; [done|]. history_grows.
Qed.

Lemma orient_run observations unexpected h :
  exists analysis h',
    OODALoop.orient this observations unexpected h = (Return analysis, h')
    /\ h `prefix_of` h'
    /\ OODALoop.isPlanStillValid this h = (Return (planValid analysis), h)
    /\ needsReplanning analysis
       = stateChanged analysis || negb (planValid analysis)
         || negb (goalReachable analysis)
         || (0 <? length (anomalies observations))%nat.
Proof.
  unfold OODALoop.orient.
  destruct (isPlanStillValid_returns this h) as (valid & Hvalid).
  rewrite (bind_Return _ _ _ _ _ Hvalid).
  unfold OODALoop.isGoalStillReachable.
  destruct (generatePlan_returns (planner this) (worldState this) (goalState this) h)
    as (r & h' & Hgen & Hpre).
  rewrite (bind_Return _ _ _ _ _ (bind_Return _ (fun testPlan => ret _) _ _ _ Hgen)).
  eexists _, h'. split; [reflexivity|]. split; [exact Hpre|].
  split; [exact Hvalid | reflexivity].
Qed.

Lemma executeNextAction_keeps_monitoring now h this' h' :
  OODALoop.executeNextAction this now h = (Return this', h') ->
  monitoring this' = monitoring this.
Proof.
  unfold OODALoop.executeNextAction.
  destruct (currentPlan this) as [plan|]; [|discriminate].
  destruct (plan !! currentStep this) as [a|]; [|by intros [= <- _]].
  unfold try_catch.
  destruct (execute_leaves_heap a h) as [[res Hexec] | Hexec].
  - rewrite (bind_Return _ _ _ _ _ Hexec).
    destruct (holds (heap_read h (worldState this)) (preconditions a)) eqn:Happ.
    + rewrite (bind_Return _ _ _ _ _ (apply_run_applicable a _ h Happ)).
      by intros [= <- _].
    + unfold bind. rewrite (apply_run_inapplicable a _ h Happ). by intros [= <- _].
  - unfold bind. rewrite Hexec. by intros [= <- _].
Qed.

(** A pass of the loop, by cases on what [orient] finds: it is [replan]
    when replanning is needed, and [executeNextAction], on a plan, when
    it is not. *)
Lemma cycle_cases unexpected now h :
  exists observations h1 analysis h2,
    OODALoop.observe this h = (Return observations, h1)
    /\ OODALoop.orient this observations unexpected h1 = (Return analysis, h2)
    /\ h `prefix_of` h2
    /\ if needsReplanning analysis
       then OODALoop.cycle this unexpected now h = OODALoop.replan this now h2
       else exists plan,
              currentPlan this = Some plan
              /\ OODALoop.cycle this unexpected now h
                 = OODALoop.executeNextAction this now h2.
Proof.
  assert (Hobserve : OODALoop.observe this h
            = (Return (mkObservations (length h) (currentStep this)
                         (match currentPlan this with
                          | Some plan => length plan
                          | None => 0%nat
                          end)
                         (list.last (executionHistory this))
                         (OODALoop.detectAnomalies this)),
               h ++ [cloned (heap_read h (worldState this))])).
  { unfold OODALoop.observe.
    by rewrite (bind_Return _ _ _ _ _ (clone_run (worldState this) h)). }
  set (h1 := h ++ [cloned (heap_read h (worldState this))]) in *.
  assert (Hpre1 : h `prefix_of` h1) by (by apply prefix_app_r).
  match type of Hobserve with _ = (Return ?o, _) =>
    destruct (orient_run o unexpected h1) as (analysis & h2 & Horient & Hpre2 & Hvalid & Hneeds)
  end.
  eexists _, h1, analysis, h2. split; [exact Hobserve|]. split; [exact Horient|].
  split; [by etrans|].
  unfold OODALoop.cycle.
  rewrite (bind_Return _ _ _ _ _ Hobserve), (bind_Return _ _ _ _ _ Horient).
  unfold OODALoop.decide.
  destruct (needsReplanning analysis) eqn:Hreplan.
  { by rewrite (bind_Return (ret _) _ h2 _ h2 eq_refl). }
  unfold OODALoop.isPlanStillValid in Hvalid.
  destruct (currentPlan this) as [plan|] eqn:Hplan.
  2:{ injection Hvalid as Hvalid. rewrite <- Hvalid in Hneeds. cbn in Hneeds.
      rewrite orb_true_r in Hneeds. cbn in Hneeds. congruence. }
  destruct (length plan <=? currentStep this)%nat eqn:Hdone.
  { injection Hvalid as Hvalid. rewrite <- Hvalid in Hneeds. cbn in Hneeds.
    rewrite orb_true_r in Hneeds. cbn in Hneeds. congruence. }
  exists plan. split; [reflexivity|].
  by rewrite (bind_Return (ret _) _ h2 _ h2 eq_refl).
Qed.

Lemma cycle_step unexpected now h :
  exists this' h',
    OODALoop.cycle this unexpected now h = (Return this', h')
    /\ loop_step this h this' h'.
Proof.
  destruct (cycle_cases unexpected now h)
    as (observations & h1 & analysis & h2 & _ & _ & Hpre & Hcases).
  destruct (needsReplanning analysis).
  - rewrite Hcases. destruct (replan_step now h2) as (this' & h' & Hrun & Hstep).
    exists this', h'. split; [exact Hrun | by eapply loop_step_prefix].
  - destruct Hcases as (plan & Hplan & ->).
    destruct (executeNextAction_step plan now h2 Hplan) as (this' & h' & Hrun & Hstep).
    exists this', h'. split; [exact Hrun | by eapply loop_step_prefix].
Qed.

End Cycle.



(** X20. The history is append-only: a pass of the loop keeps the
    entries it found and appends at most one; it keeps the planner and
    the goal state, and every state that existed before the pass is left
    as it was. *)
Theorem cycle_appends_to_history this unexpected now h this' h' :
  OODALoop.cycle this unexpected now h = (Return this', h') ->
  executionHistory this `prefix_of` executionHistory this'
  /\ (length (executionHistory this') <= S (length (executionHistory this)))%nat
  /\ planner this' = planner this
  /\ goalState this' = goalState this
  /\ h `prefix_of` h'.
Proof.
  intros Hrun.
  destruct (cycle_step this unexpected now h)
    as (this1 & h1 & Hrun1 & Hpre & Hplanner & Hgoal & es & Hhist & Hlen).
  rewrite Hrun in Hrun1. injection Hrun1 as <- <-.
  rewrite Hhist. split; [by apply prefix_app_r|]. rewrite length_app.
  repeat split; try done. lia.
Qed.

Lemma cycle_appends_to_history_witness :
  executionHistory LoopScenario.loop0 `prefix_of` executionHistory LoopScenario.loop1
  /\ (length (executionHistory LoopScenario.loop1)
      <= S (length (executionHistory LoopScenario.loop0)))%nat.
Proof.
  destruct (cycle_appends_to_history LoopScenario.loop0 false "t1" LoopScenario.heap0
              LoopScenario.loop1 LoopScenario.heap1)
    as (Hpre & Hlen & _); [vm_compute; reflexivity|].
  split; [exact Hpre | exact Hlen].
Defined.

(** X21. A pass of the loop stops the monitoring only through a
    failed replan: [orient], on the heap [observe] left, asked for
    replanning, and the call of [generatePlan] that [replan] made, from
    the world state to the goal on the heap [orient] left, returned
    [null]; the pass changed nothing of the loop object but the
    monitoring flag. *)
Theorem cycle_stops_only_when_no_plan this unexpected now h this' h' :
  monitoring this = true ->
  OODALoop.cycle this unexpected now h = (Return this', h') ->
  monitoring this' = false ->
  exists observations h1 analysis h2,
    OODALoop.observe this h = (Return observations, h1)
    /\ OODALoop.orient this observations unexpected h1 = (Return analysis, h2)
    /\ needsReplanning analysis = true
    /\ GOAPPlanner.generatePlan (planner this) (worldState this) (goalState this) h2
       = (Return None, h')
    /\ this' = mkLoop (planner this) (currentPlan this) (currentStep this)
                 (worldState this) (goalState this) (executionHistory this) false.
Proof.
  intros Hon Hrun Hoff.
  destruct (cycle_cases this unexpected now h)
    as (observations & h1 & analysis & h2 & Hobserve & Horient & _ & Hcases).
  exists observations, h1, analysis, h2.
  split; [exact Hobserve|]. split; [exact Horient|].
  destruct (needsReplanning analysis).
  - split; [reflexivity|]. rewrite Hcases in Hrun. unfold OODALoop.replan in Hrun.
    destruct (generatePlan_returns (planner this) (worldState this) (goalState this) h2)
      as (r & h3 & Hgen & _).
    rewrite (bind_Return _ _ _ _ _ Hgen) in Hrun. destruct r as [plan|].
    + injection Hrun as <- _. cbn in Hoff. congruence.
    + injection Hrun as <- <-. split; [exact Hgen | reflexivity].
  - destruct Hcases as (plan & _ & Hcycle). rewrite Hcycle in Hrun.
    apply executeNextAction_keeps_monitoring in Hrun. congruence.
Qed.

Lemma cycle_stops_only_when_no_plan_witness :
  exists this' h',
    OODALoop.cycle (mkLoop GOAPPlanner.new None 0 0 1 [] true) false "t1" Scenario.heap0
    = (Return this', h')
    /\ this' = mkLoop GOAPPlanner.new None 0 0 1 [] false.
Proof.
  destruct (OODALoop.cycle (mkLoop GOAPPlanner.new None 0 0 1 [] true) false "t1"
              Scenario.heap0) as [[this'|msg] h'] eqn:Hrun.
  - exists this', h'. split; [reflexivity|].
    destruct (cycle_stops_only_when_no_plan (mkLoop GOAPPlanner.new None 0 0 1 [] true)
                false "t1" Scenario.heap0 this' h')
      as (_ & _ & _ & _ & _ & _ & _ & _ & Hthis); [reflexivity | exact Hrun | | exact Hthis].
    vm_compute in Hrun. injection Hrun as <- _. reflexivity.
  - vm_compute in Hrun. discriminate.
Defined.



(** ** The OODA simulation of goap-final-demo.js *)

Lemma same_state_cloned (m : JSMap) : NoDup m.*1 -> same_state (cloned m) m.
Proof.
  intros Hnd. split; [intros k; by apply lookup_value_cloned | by apply cloned_idemp].
Qed.

Lemma same_state_refl (m : JSMap) : same_state m m.
Proof. by split. Qed.

Lemma overwritten_same_state (m1 m2 : JSMap) (e : Obj) :
  same_state m1 m2 -> overwritten m1 e = overwritten m2 e.
Proof. intros [_ Hclone]. unfold overwritten. by rewrite Hclone. Qed.

Lemma simulation_cycles_follow_plan this cycles plan s step h m g mf c :
  (s < length h)%nat ->
  (step <= length plan)%nat ->
  same_state (heap_read h s) m ->
  plan_run this m g (drop step plan) = Some (mf, c) ->
  exists s' h',
    FinalGOAPDemo.simulation_cycles cycles plan s step h
    = (Return (if (length plan <? step + cycles)%nat then Completed else CyclesOver,
               s', Nat.min (step + cycles) (length plan)), h')
    /\ h `prefix_of` h'
    /\ ((length plan <= step + cycles)%nat -> same_state (heap_read h' s') mf).
Proof.
  revert s step h m g. induction cycles as [|cycles IH]; intros s step h m g Hs Hstep Hsame Hrun.
  - exists s, h. cbn [FinalGOAPDemo.simulation_cycles]. rewrite Nat.add_0_r.
    replace (length plan <? step)%nat with false by (symmetry; apply Nat.ltb_ge; lia).
    rewrite Nat.min_l by done. split; [reflexivity|]. split; [done|].
    intros Hend. assert (step = length plan) as -> by lia.
    rewrite drop_all in Hrun. cbn in Hrun. by injection Hrun as <- _.
  - cbn [FinalGOAPDemo.simulation_cycles].
    destruct (plan !! step) as [a|] eqn:Hlookup.
    + pose proof (lookup_lt_Some _ _ _ Hlookup) as Hlt.
      rewrite (drop_S _ _ _ Hlookup) in Hrun. cbn [plan_run] in Hrun.
      destruct (bool_decide _) in Hrun; [|discriminate].
      destruct (holds m (preconditions a)) eqn:Hpre; [|discriminate].
      destruct (_ <=? _) in Hrun; [|discriminate]. cbn [andb] in Hrun.
      assert (Happ : holds (heap_read h s) (preconditions a) = true).
      { rewrite <- Hpre. apply holds_ext. apply Hsame. }
      rewrite (bind_Return _ _ _ _ _ (isApplicable_run a s h)), Happ.
      rewrite (bind_Return _ _ _ _ _ (apply_run_applicable a s h Happ)).
      destruct (IH (length h) (S step)
                  (h ++ [overwritten (heap_read h s) (effects a)])
                  (overwritten m (effects a)) (g + cost a))
        as (s' & h' & Hsim & Hprefix & Hfinal).
      { rewrite length_app. cbn. lia. }
      { lia. }
      { rewrite heap_read_fresh, (overwritten_same_state _ m) by done.
        apply same_state_refl. }
      { exact Hrun. }
      exists s', h'. replace (step + S cycles)%nat with (S step + cycles)%nat by lia.
      split; [exact Hsim|]. split; [|exact Hfinal].
      etrans; [|exact Hprefix]. by apply prefix_app_r.
    + apply lookup_ge_None in Hlookup. assert (step = length plan) as -> by lia.
      rewrite (bind_Return (ret false) _ h _ h eq_refl).
      exists s, h.
      replace (length plan <? length plan + S cycles)%nat with true
        by (symmetry; apply Nat.ltb_lt; lia).
      rewrite Nat.min_r by lia. split; [reflexivity|]. split; [done|].
      intros _. rewrite drop_all in Hrun. cbn in Hrun. by injection Hrun as <- _.
Qed.

(** X23. The demo's OODA simulation never asks for a replan on a plan
    that [generatePlan] returned for its initial state: each of the
    first three actions is applicable when its turn comes.  The
    simulation executes three actions at most, ends by [COMPLETE]
    exactly when the plan has fewer than three actions, and, when the
    plan has at most three, leaves a state that satisfies the goal. *)
Theorem simulation_of_generated_plan_never_replans this initial goal h plan h1 :
  (initial < length h)%nat ->
  (goal < length h)%nat ->
  NoDup (heap_read h initial).*1 ->
  GOAPPlanner.generatePlan this initial goal h = (Return (Some plan), h1) ->
  exists s h2,
    FinalGOAPDemo.simulation plan initial h1
    = (Return (if (length plan <? 3)%nat then Completed else CyclesOver,
               s, Nat.min 3 (length plan)), h2)
    /\ ((length plan <= 3)%nat ->
        GOAPState.satisfies s (Object_fromEntries (heap_read h2 goal)) h2
        = (Return true, h2)).
Proof.
  intros Hinitial Hgoal Hnd Hgen.
  destruct (generatePlan_returns this initial goal h) as (r & h' & Hret & Hpre).
  rewrite Hgen in Hret. injection Hret as <- <-.
  destruct (generatePlan_ok this initial goal h plan h1 Hinitial Hgen)
    as (mf & c & Hrun & Hholds).
  pose proof (prefix_length _ _ Hpre) as Hlen.
  unfold FinalGOAPDemo.simulation.
  rewrite (bind_Return _ _ _ _ _ (clone_run initial h1)).
  destruct (simulation_cycles_follow_plan this 3 plan (length h1) 0
              (h1 ++ [cloned (heap_read h1 initial)]) (heap_read h initial) 0 mf c)
    as (s & h2 & Hsim & Hpre2 & Hfinal).
  { rewrite length_app. cbn. lia. }
  { lia. }
  { rewrite heap_read_fresh, (heap_read_prefix h h1) by done. by apply same_state_cloned. }
  { by rewrite drop_0. }
  exists s, h2. split; [exact Hsim|].
  intros Hshort. rewrite satisfies_run. f_equal. f_equal.
  destruct (Hfinal Hshort) as [Hlookups _].
  rewrite (holds_ext _ mf) by done.
  rewrite (heap_read_prefix h1 h2 goal); [done | | lia].
  etrans; [|exact Hpre2]. by apply prefix_app_r.
Qed.

Lemma simulation_of_generated_plan_never_replans_witness :
  exists plan h1 s h2,
    GOAPPlanner.generatePlan Scenario.plannerB 0%nat 1%nat Scenario.heap0
    = (Return (Some plan), h1)
    /\ FinalGOAPDemo.simulation plan 0%nat h1 = (Return (CyclesOver, s, 3%nat), h2)
    /\ GOAPState.satisfies s (Object_fromEntries (heap_read h2 1%nat)) h2
       = (Return true, h2).
Proof.
  eexists _, _. 
  assert (Hgen : GOAPPlanner.generatePlan Scenario.plannerB 0%nat 1%nat Scenario.heap0
                 = (Return (Some [Scenario.create; Scenario.code; Scenario.quickdeploy]),
                    (GOAPPlanner.generatePlan Scenario.plannerB 0%nat 1%nat Scenario.heap0).2))
    by (vm_compute; reflexivity).
  destruct (simulation_of_generated_plan_never_replans Scenario.plannerB 0%nat 1%nat
              Scenario.heap0 _ _ ltac:(cbn; lia) ltac:(cbn; lia)
              ltac:(apply (bool_decide_unpack _); vm_compute; exact I) Hgen)
    as (s & h2 & Hsim & Hsat).
  exists s, h2. split; [exact Hgen|]. split; [exact Hsim|]. apply Hsat. cbn. lia.
Defined.

(** X24. The validity test of [orient] checks every remaining action
    against the current world state: as soon as one action at or after
    the current step is not applicable now, [planValid] is [false],
    [needsReplanning] is [true] and [decide] answers [Replan]. *)
Theorem orient_replans_when_a_remaining_action_is_inapplicable
    this plan j a observations unexpected h :
  currentPlan this = Some plan ->
  (currentStep this <= j)%nat ->
  plan !! j = Some a ->
  GOAPAction.isApplicable a (worldState this) h = (Return false, h) ->
  exists analysis h',
    OODALoop.orient this observations unexpected h = (Return analysis, h')
    /\ planValid analysis = false
    /\ needsReplanning analysis = true
    /\ OODALoop.decide this analysis h'
       = (Return (mkDecision Replan "Conditions changed, replanning required"), h').
Proof.
  intros Hplan Hj Hlookup Hinapplicable.
  destruct (orient_run this observations unexpected h)
    as (analysis & h' & Horient & _ & Hvalid & Hneeds).
  assert (Hinvalid : planValid analysis = false).
  { unfold OODALoop.isPlanStillValid in Hvalid. rewrite Hplan in Hvalid.
    destruct (length plan <=? currentStep this)%nat; [by injection Hvalid as <-|].
    rewrite every_isApplicable_run in Hvalid. injection Hvalid as <-.
    apply not_true_is_false. intros Hall. rewrite forallb_forall in Hall.
    assert (Hin : a ∈ drop (currentStep this) plan).
    { apply list_elem_of_lookup. exists (j - currentStep this)%nat.
      rewrite lookup_drop. rewrite <- Hlookup. f_equal. lia. }
    apply list_elem_of_In in Hin. specialize (Hall _ Hin).
    rewrite isApplicable_run in Hinapplicable.
    injection Hinapplicable as Hno. congruence. }
  assert (Hreplan : needsReplanning analysis = true).
  { rewrite Hneeds, Hinvalid. cbn. by rewrite orb_true_r. }
  exists analysis, h'. split; [exact Horient|]. split; [exact Hinvalid|].
  split; [exact Hreplan|]. unfold OODALoop.decide. by rewrite Hreplan.
Qed.

Lemma orient_replans_when_a_remaining_action_is_inapplicable_witness :
  exists analysis h',
    OODALoop.orient
      (mkLoop Scenario.plannerA
         (Some [Scenario.create; Scenario.code; Scenario.deploy]) 0 0 1 [] true)
      (mkObservations 0 0 3 None []) false Scenario.heap0
    = (Return analysis, h')
    /\ planValid analysis = false
    /\ needsReplanning analysis = true.
Proof.
  destruct (orient_replans_when_a_remaining_action_is_inapplicable
              (mkLoop Scenario.plannerA
                 (Some [Scenario.create; Scenario.code; Scenario.deploy]) 0 0 1 [] true)
              [Scenario.create; Scenario.code; Scenario.deploy] 1%nat Scenario.code
              (mkObservations 0 0 3 None []) false Scenario.heap0)
    as (analysis & h' & Horient & Hvalid & Hreplan & _).
  - reflexivity.
  - cbn. lia.
  - reflexivity.
  - reflexivity.
  - exists analysis, h'. split; [exact Horient|]. split; [exact Hvalid | exact Hreplan].
Defined.

(** X25. [decide] never answers [Complete] to an analysis that [orient]
    made of the same loop state: with no action left [orient] asks for
    replanning, so the branch that ends the loop successfully is not
    reached. *)
Theorem decide_after_orient_is_never_complete
    this observations unexpected h analysis h' d h'' :
  OODALoop.orient this observations unexpected h = (Return analysis, h') ->
  OODALoop.decide this analysis h' = (Return d, h'') ->
  decision_action d = Replan
  \/ (decision_action d = Continue
      /\ exists plan a,
           currentPlan this = Some plan /\ plan !! currentStep this = Some a).
Proof.
  intros Horient Hdecide.
  destruct (orient_run this observations unexpected h)
    as (analysis' & h1 & Horient' & _ & Hvalid & Hneeds).
  rewrite Horient in Horient'. injection Horient' as <- <-.
  unfold OODALoop.decide in Hdecide.
  destruct (needsReplanning analysis) eqn:Hreplan.
  { injection Hdecide as <- _. by left. }
  destruct (currentPlan this) as [plan|] eqn:Hplan; [|discriminate].
  destruct (length plan <=? currentStep this)%nat eqn:Hdone.
  - apply Nat.leb_le in Hdone.
    rewrite (isPlanStillValid_no_action_left this plan h Hplan Hdone) in Hvalid.
    injection Hvalid as Hvalid. rewrite <- Hvalid in Hneeds. cbn in Hneeds.
    rewrite orb_true_r in Hneeds. cbn in Hneeds. congruence.
  - injection Hdecide as <- _. right. split; [reflexivity|].
    apply Nat.leb_gt in Hdone. apply lookup_lt_is_Some in Hdone as [a Ha].
    by exists plan, a.
Qed.

Lemma decide_after_orient_is_never_complete_witness :
  exists observations h1 analysis h2 d,
    OODALoop.observe LoopScenario.loop1 LoopScenario.heap1 = (Return observations, h1)
    /\ OODALoop.orient LoopScenario.loop1 observations false h1 = (Return analysis, h2)
    /\ OODALoop.decide LoopScenario.loop1 analysis h2 = (Return d, h2)
    /\ decision_action d = Replan.
Proof.
  eexists _, _, _, _, _. split; [vm_compute; reflexivity|].
  split; [vm_compute; reflexivity|]. split; [vm_compute; reflexivity|].
  match goal with |- decision_action ?d = _ =>
    destruct (decide_after_orient_is_never_complete LoopScenario.loop1
                (mkObservations 5 1 1
                   (Some (mkEntry (StepIndex 0) "create" (Some ResultCode) None None "t1")) [])
                false
                (LoopScenario.heap1 ++ [[("exists"%string, Scenario.yes)]])
                {| stateChanged := false; planValid := false; goalReachable := true;
                   needsReplanning := true |}
                ((GOAPPlanner.generatePlan Scenario.plannerA 4%nat 1%nat
                    (LoopScenario.heap1 ++ [[("exists"%string, Scenario.yes)]])).2)
                d
                ((GOAPPlanner.generatePlan Scenario.plannerA 4%nat 1%nat
                    (LoopScenario.heap1 ++ [[("exists"%string, Scenario.yes)]])).2))
      as [Hd | [Hd _]]
  end; [vm_compute; reflexivity | vm_compute; reflexivity | exact Hd | discriminate Hd].
Defined.
